(** * The thought tracker of mcp-sequential-thinking (server.go)

    A shallow embedding of [SequentialThinkingServer]: the input and output
    records, [validateThoughtData], the sorted branch-key insertion of
    [ProcessThought] (binary search, append, shift, store), the log frame
    of [formatThought], and a small-step model of the mutex-guarded section
    for concurrent callers.

    Conventions.
    - Go's [int] is modelled by [Z]; the code only compares these fields and
      copies them, so no wrap-around arithmetic occurs.
    - Go's [string] is a byte string: [string] of Rocq, compared bytewise
      ([String.compare]), with [String.length] for [len].
    - [map[string]struct{}] is a [gset string]; a slice is a [list]; the
      [nil] slice of the response is [None].
    - [errors.New msg] is the message [msg]. *)

From Stdlib Require Import ZArith String Ascii List Sorted DecimalString.
From stdpp Require Import base decidable option list sorting gmap strings.

Local Open Scope string_scope.
Local Open Scope list_scope.
Local Open Scope Z_scope.

(** ** Data model *)

Module ThoughtData.
Record t : Type := mk {
  Thought : string;
  NextThoughtNeeded : bool;
  ThoughtNumber : Z;
  TotalThoughts : Z;
  IsRevision : bool;
  RevisesThought : Z;
  BranchFromThought : Z;
  BranchId : string;
  NeedsMoreThoughts : bool
}.
End ThoughtData.

Module Output.
Record t : Type := mk {
  ThoughtNumber : Z;
  TotalThoughts : Z;
  NextThoughtNeeded : bool;
  Branches : option (list string);
  ThoughtHistoryLength : Z
}.
End Output.

Record SequentialThinkingServer : Type := mkServer {
  thoughtHistory : list unit;
  branches : gset string;
  branchKeys : list string;
  enableThoughtLogging : bool
}.

(** [NewSequentialThinkingServer], with the value of the environment flag
    already parsed by the caller. *)
Definition NewSequentialThinkingServer (enableLogging : bool)
  : SequentialThinkingServer :=
  {| thoughtHistory := [];
     branches := ∅;
     branchKeys := [];
     enableThoughtLogging := enableLogging |}.

(** An [error] is its message. *)
Definition error : Type := string.

(** ** validateThoughtData *)

Definition validateThoughtData (input : ThoughtData.t) : option error :=
  if String.eqb (ThoughtData.Thought input) "" then
    Some "invalid thought: must be a string"
  else if ThoughtData.ThoughtNumber input <=? 0 then
    Some "invalid thoughtNumber: must be a number > 0"
  else if ThoughtData.TotalThoughts input <=? 0 then
    Some "invalid totalThoughts: must be a number > 0"
  else None.

(** ** sort.Search and sort.SearchStrings

    The loop of [sort.Search]: [i, j := 0, n]; while [i < j], probe
    [h = (i+j)/2] and keep the half that still may hold the answer.  The
    interval shrinks at every turn, so [n] turns are enough. *)

Fixpoint Search_loop (fuel : nat) (f : nat -> bool) (i j : nat) : nat :=
  match fuel with
  | O => i
  | S fuel' =>
      if (i <? j)%nat then
        let h := ((i + j) / 2)%nat in
        if negb (f h) then Search_loop fuel' f (S h) j
        else Search_loop fuel' f i h
      else i
  end.

Definition sort_Search (n : nat) (f : nat -> bool) : nat :=
  Search_loop n f 0 n.

(** [a[i] >= x] on strings; the probe is always in range. *)
Definition ge_at (a : list string) (x : string) (i : nat) : bool :=
  match a !! i with
  | Some y => String.leb x y
  | None => false
  end.

Definition sort_SearchStrings (a : list string) (x : string) : nat :=
  sort_Search (length a) (ge_at a x).

(** ** The slice operations of the insertion *)

(** [copy(dst, src)]: the first [min (len dst) (len src)] elements of
    [dst] are overwritten by those of [src] (as read before the call). *)
Definition copy {A} (dst src : list A) : list A :=
  take (length dst) src ++ drop (length src) dst.

(** [copy(s[i+1:], s[i:])] seen from the whole slice [s]. *)
Definition shift_right {A} (s : list A) (i : nat) : list A :=
  take (S i) s ++ copy (drop (S i) s) (drop i s).

(** Lines 184-191: the sorted insertion into [branchKeys]. *)
Definition insertBranchKey (keys : list string) (branchID : string)
  : list string :=
  let insertAt := sort_SearchStrings keys branchID in
  if (insertAt =? length keys)%nat then keys ++ [branchID]
  else
    match keys !! insertAt with
    | Some k =>
        if negb (String.eqb k branchID) then
          <[insertAt := branchID]> (shift_right (keys ++ [""]) insertAt)
        else keys
    | None => keys
    end.

(** ** The statements of ProcessThought *)

(** Line 180: the condition of a branch registration. *)
Definition branchTrigger (input : ThoughtData.t) : bool :=
  (ThoughtData.BranchFromThought input <? 0)
  && negb (String.eqb (ThoughtData.BranchId input) "").

(** Lines 168-170. *)
Definition normalize (input : ThoughtData.t) : ThoughtData.t :=
  if ThoughtData.ThoughtNumber input >? ThoughtData.TotalThoughts input then
    ThoughtData.mk (ThoughtData.Thought input)
      (ThoughtData.NextThoughtNeeded input)
      (ThoughtData.ThoughtNumber input)
      (ThoughtData.ThoughtNumber input)
      (ThoughtData.IsRevision input)
      (ThoughtData.RevisesThought input)
      (ThoughtData.BranchFromThought input)
      (ThoughtData.BranchId input)
      (ThoughtData.NeedsMoreThoughts input)
  else input.

(** Line 178. *)
Definition appendHistory (s : SequentialThinkingServer)
  : SequentialThinkingServer :=
  {| thoughtHistory := thoughtHistory s ++ [tt];
     branches := branches s;
     branchKeys := branchKeys s;
     enableThoughtLogging := enableThoughtLogging s |}.

(** Lines 180-193. *)
Definition registerBranch (s : SequentialThinkingServer)
    (input : ThoughtData.t) : SequentialThinkingServer :=
  if branchTrigger input then
    let branchID := ThoughtData.BranchId input in
    if bool_decide (branchID ∈ branches s) then s
    else
      {| thoughtHistory := thoughtHistory s;
         branches := {[branchID]} ∪ branches s;
         branchKeys := insertBranchKey (branchKeys s) branchID;
         enableThoughtLogging := enableThoughtLogging s |}
  else s.

(** Lines 196-198: the copy of the keys, [nil] when there is none. *)
Definition snapshotBranches (s : SequentialThinkingServer)
  : option (list string) :=
  if (0 <? length (branchKeys s))%nat then Some ([] ++ branchKeys s)
  else None.

(** Line 195. *)
Definition historyLen (s : SequentialThinkingServer) : Z :=
  Z.of_nat (length (thoughtHistory s)).

(** The section between [s.mu.Lock()] and [s.mu.Unlock()]. *)
Definition locked (s : SequentialThinkingServer) (input : ThoughtData.t)
  : SequentialThinkingServer * (option (list string) * Z) :=
  let s1 := appendHistory s in
  let s2 := registerBranch s1 input in
  (s2, (snapshotBranches s2, historyLen s2)).

(** ** formatThought *)

(** [%d] of [fmt.Sprintf]. *)
Definition itoa (n : Z) : string := NilZero.string_of_int (Z.to_int n).

(** [len] of a Go string, as an [int]. *)
Definition len (s : string) : Z := Z.of_nat (String.length s).

(** [strings.Repeat s n]. *)
Fixpoint Repeat (s : string) (n : nat) : string :=
  match n with
  | O => ""
  | S n' => s ++ Repeat s n'
  end.

(** [strings.Replace s old new 1] for a non-empty [old]: the leftmost
    occurrence of [old] is replaced. *)
Fixpoint Replace1 (s old new : string) : string :=
  if String.prefix old s then
    new ++ String.substring (String.length old)
             (String.length s - String.length old) s
  else
    match s with
    | EmptyString => ""
    | String c s' => String c (Replace1 s' old new)
    end.

Definition nl : string := String (ascii_of_nat 10) "".

(** The first switch of [formatThought]: prefix and context. *)
Definition prefixText (d : ThoughtData.t) : string :=
  if ThoughtData.IsRevision d then "🔄 Revision"
  else if ThoughtData.BranchFromThought d <? 0 then "🌿 Branch"
  else "💭 Thought".

Definition contextText (d : ThoughtData.t) : string :=
  if ThoughtData.IsRevision d then
    if ThoughtData.RevisesThought d <? 0 then
      " (revising thought " ++ itoa (ThoughtData.RevisesThought d) ++ ")"
    else ""
  else if ThoughtData.BranchFromThought d <? 0 then
    let branchID :=
      if negb (String.eqb (ThoughtData.BranchId d) "")
      then ThoughtData.BranchId d else "" in
    " (from thought " ++ itoa (ThoughtData.BranchFromThought d)
      ++ ", ID: " ++ branchID ++ ")"
  else "".

(** Line 120. *)
Definition headerContent (d : ThoughtData.t) : string :=
  prefixText d ++ " " ++ itoa (ThoughtData.ThoughtNumber d) ++ "/"
    ++ itoa (ThoughtData.TotalThoughts d) ++ contextText d.

(** The colour constants are raw string literals in the source. *)
Definition yellow : string := "\033[33m".
Definition green : string := "\033[32m".
Definition blue : string := "\033[34m".
Definition reset : string := "\033[0m".

Definition coloredPrefix (d : ThoughtData.t) : string :=
  if ThoughtData.IsRevision d then yellow ++ prefixText d ++ reset
  else if ThoughtData.BranchFromThought d <? 0 then
    green ++ prefixText d ++ reset
  else blue ++ prefixText d ++ reset.

Definition coloredHeader (d : ThoughtData.t) : string :=
  Replace1 (headerContent d) (prefixText d) (coloredPrefix d).

(** Line 143; the lengths are far below 2^53, where [math.Max] on
    [float64] is the maximum of the integers. *)
Definition borderLen (d : ThoughtData.t) : Z :=
  Z.max (len (headerContent d)) (len (ThoughtData.Thought d)) + 4.

Definition formatThought (d : ThoughtData.t) : string :=
  let border := Repeat "─" (Z.to_nat (borderLen d)) in
  nl ++ "┌" ++ border ++ "┐" ++ nl
  ++ "│ " ++ coloredHeader d
     ++ Repeat " " (Z.to_nat (borderLen d - len (headerContent d) - 2))
     ++ " │" ++ nl
  ++ "├" ++ border ++ "┤" ++ nl
  ++ "│ " ++ ThoughtData.Thought d
     ++ Repeat " " (Z.to_nat (borderLen d - len (ThoughtData.Thought d) - 2))
     ++ " │" ++ nl
  ++ "└" ++ border ++ "┘".

(** ** ProcessThought *)

Inductive result : Type :=
| Err (e : error)
| Ok (o : Output.t).

(** What one call does: the server afterwards, what it wrote to the
    diagnostic stream, and what it returned.  The text content of the
    tool result is the JSON encoding of the [Output]; encoding two
    integers, a boolean, a list of strings and an integer does not fail,
    so the error return after [MarshalToString] has no counterpart here. *)
Record call : Type := mkCall {
  server_after : SequentialThinkingServer;
  stderr : list string;
  returned : result
}.

Definition ProcessThought (s : SequentialThinkingServer)
    (input0 : ThoughtData.t) : call :=
  match validateThoughtData input0 with
  | Some err => mkCall s [] (Err err)
  | None =>
      let input := normalize input0 in
      let '(s', (branchesSnapshot, historyLen)) := locked s input in
      let written :=
        if enableThoughtLogging s' then [formatThought input +:+ nl]
        else [] in
      mkCall s' written
        (Ok {| Output.ThoughtNumber := ThoughtData.ThoughtNumber input;
               Output.TotalThoughts := ThoughtData.TotalThoughts input;
               Output.NextThoughtNeeded := ThoughtData.NextThoughtNeeded input;
               Output.Branches := branchesSnapshot;
               Output.ThoughtHistoryLength := historyLen |})
  end.

(** Calls issued one after the other on the same server. *)
Fixpoint run (s : SequentialThinkingServer) (inputs : list ThoughtData.t)
  : SequentialThinkingServer * list result :=
  match inputs with
  | [] => (s, [])
  | input :: rest =>
      let c := ProcessThought s input in
      let '(s', outs) := run (server_after c) rest in
      (s', returned c :: outs)
  end.

(** ** Sorted key lists *)

(** Strictly ascending in the bytewise order of Go's string comparison. *)
Definition lex_lt : relation string := strict String.le.

Definition sortedKeys (l : list string) : Prop := StronglySorted lex_lt l.

(** ** Accepted calls *)

Definition valid (input : ThoughtData.t) : Prop :=
  validateThoughtData input = None.

(** The spec's name for the three validation errors: the message starts
    with [invalid <field>:]. *)
Definition InvalidInput (field : string) (e : error) : Prop :=
  String.prefix ("invalid " +:+ field +:+ ":") e = true.

(** The server after an accepted call. *)
Definition accepted (s : SequentialThinkingServer) (input : ThoughtData.t)
  : SequentialThinkingServer :=
  registerBranch (appendHistory s) input.

(** ** The invariant of the branch index *)

Record consistent (s : SequentialThinkingServer) : Prop := mkConsistent {
  keys_sorted : sortedKeys (branchKeys s);
  keys_branches : forall x : string, x ∈ branchKeys s <-> x ∈ branches s
}.

(** ** Registered identifiers *)

(** The identifiers that the calls of a run registered: those of the
    accepted inputs that meet the condition of line 180. *)
Fixpoint registered (inputs : list ThoughtData.t) : gset string :=
  match inputs with
  | [] => ∅
  | input :: rest =>
      (if validateThoughtData input is None then
         if branchTrigger input then {[ThoughtData.BranchId input]} else ∅
       else ∅) ∪ registered rest
  end.

(** ** Concurrent callers

    Each caller runs [ProcessThought] on its own argument.  A caller is at
    one of the program points below; a step executes the statement at that
    point.  The validation and the normalisation touch locals only and form
    the first step; every later step reads or writes the shared server, the
    mutex or the diagnostic stream once.  [s.mu.Lock()] can be taken only
    while the mutex is free. *)

Inductive pc : Type :=
| AtValidate
| AtLock (input : ThoughtData.t)
| AtAppend (input : ThoughtData.t)
| AtRegister (input : ThoughtData.t)
| AtLen (input : ThoughtData.t)
| AtSnapshot (input : ThoughtData.t) (historyLen : Z)
| AtUnlock (input : ThoughtData.t) (historyLen : Z)
    (branchesSnapshot : option (list string))
| AtLog (input : ThoughtData.t) (historyLen : Z)
    (branchesSnapshot : option (list string))
| Returned (r : result).

Record config : Type := mkConfig {
  srv : SequentialThinkingServer;
  mu : bool;
  diag : list string;
  pcs : list pc
}.

Definition at_pc (c : config) (t : nat) (p : pc) : config :=
  {| srv := srv c; mu := mu c; diag := diag c; pcs := <[t := p]> (pcs c) |}.

Definition with_srv (c : config) (s : SequentialThinkingServer) : config :=
  {| srv := s; mu := mu c; diag := diag c; pcs := pcs c |}.

Definition with_mu (c : config) (m : bool) : config :=
  {| srv := srv c; mu := m; diag := diag c; pcs := pcs c |}.

Definition with_diag (c : config) (d : list string) : config :=
  {| srv := srv c; mu := mu c; diag := d; pcs := pcs c |}.

(** One step of caller [t]; [None] when [t] cannot move (it waits for the
    mutex, has returned, or does not exist). *)
Definition step (args : list ThoughtData.t) (t : nat) (c : config)
  : option config :=
  match args !! t, pcs c !! t with
  | Some a, Some p =>
      match p with
      | AtValidate =>
          match validateThoughtData a with
          | Some err => Some (at_pc c t (Returned (Err err)))
          | None => Some (at_pc c t (AtLock (normalize a)))
          end
      | AtLock input =>
          if mu c then None
          else Some (at_pc (with_mu c true) t (AtAppend input))
      | AtAppend input =>
          Some (at_pc (with_srv c (appendHistory (srv c))) t
                  (AtRegister input))
      | AtRegister input =>
          Some (at_pc (with_srv c (registerBranch (srv c) input)) t
                  (AtLen input))
      | AtLen input =>
          Some (at_pc c t (AtSnapshot input (historyLen (srv c))))
      | AtSnapshot input hl =>
          Some (at_pc c t (AtUnlock input hl (snapshotBranches (srv c))))
      | AtUnlock input hl snap =>
          Some (at_pc (with_mu c false) t (AtLog input hl snap))
      | AtLog input hl snap =>
          let written :=
            if enableThoughtLogging (srv c)
            then [formatThought input +:+ nl] else [] in
          Some (at_pc (with_diag c (diag c ++ written)) t
                  (Returned
                     (Ok {| Output.ThoughtNumber :=
                              ThoughtData.ThoughtNumber input;
                            Output.TotalThoughts :=
                              ThoughtData.TotalThoughts input;
                            Output.NextThoughtNeeded :=
                              ThoughtData.NextThoughtNeeded input;
                            Output.Branches := snap;
                            Output.ThoughtHistoryLength := hl |})))
      | Returned _ => None
      end
  | _, _ => None
  end.

(** A schedule names the caller that moves at each turn. *)
Fixpoint exec (args : list ThoughtData.t) (sched : list nat) (c : config)
  : option config :=
  match sched with
  | [] => Some c
  | t :: rest =>
      match step args t c with
      | Some c' => exec args rest c'
      | None => None
      end
  end.

(** All callers at the entry of [ProcessThought], on server [s]. *)
Definition initial (s : SequentialThinkingServer) (args : list ThoughtData.t)
  : config :=
  {| srv := s; mu := false; diag := [];
     pcs := replicate (length args) AtValidate |}.

Definition is_returned (p : pc) : bool :=
  match p with Returned _ => true | _ => false end.

Definition all_returned (c : config) : Prop :=
  Forall (fun p => is_returned p = true) (pcs c).

(** The points between [Lock] and [Unlock]. *)
Definition holds_lock (p : pc) : bool :=
  match p with
  | AtAppend _ | AtRegister _ | AtLen _ | AtSnapshot _ _ | AtUnlock _ _ _ =>
      true
  | _ => false
  end.

(** The zero value of [ThoughtData]. *)
Definition zeroThought : ThoughtData.t :=
  ThoughtData.mk "" false 0 0 false 0 0 "" false.

Definition arg_of (args : list ThoughtData.t) (t : nat) : ThoughtData.t :=
  default zeroThought (args !! t).

(** The arguments of the callers in [order]. *)
Definition args_in (args : list ThoughtData.t) (order : list nat)
  : list ThoughtData.t :=
  map (arg_of args) order.

(** ** The invariant of concurrent executions *)

(** The server after the callers in [order] ran one after the other. *)
Definition after (s0 : SequentialThinkingServer) (args : list ThoughtData.t)
    (order : list nat) : SequentialThinkingServer :=
  fst (run s0 (args_in args order)).

Definition normalized_arg (args : list ThoughtData.t) (t : nat)
    (input : ThoughtData.t) : Prop :=
  exists a : ThoughtData.t,
    args !! t = Some a /\ valid a /\ input = normalize a.

(** What caller [t] at point [p] knows, when the callers in [order] have
    left the locked section, in that order, and the server is [s]. *)
Definition thread_inv (s0 : SequentialThinkingServer)
    (args : list ThoughtData.t) (order : list nat)
    (s : SequentialThinkingServer) (t : nat) (p : pc) : Prop :=
  match p with
  | AtValidate => t ∉ order
  | AtLock input => (t ∉ order) /\ normalized_arg args t input
  | AtAppend input =>
      (t ∉ order) /\ normalized_arg args t input /\ s = after s0 args order
  | AtRegister input =>
      (t ∉ order) /\ normalized_arg args t input
      /\ s = appendHistory (after s0 args order)
  | AtLen input =>
      (t ∉ order) /\ normalized_arg args t input
      /\ s = accepted (after s0 args order) input
  | AtSnapshot input hl =>
      (t ∉ order) /\ normalized_arg args t input
      /\ s = accepted (after s0 args order) input /\ hl = historyLen s
  | AtUnlock input hl snap =>
      (t ∉ order) /\ normalized_arg args t input
      /\ s = accepted (after s0 args order) input /\ hl = historyLen s
      /\ snap = snapshotBranches s
  | AtLog input hl snap =>
      normalized_arg args t input /\
      exists k : nat,
        order !! k = Some t
        /\ hl = historyLen (after s0 args (take (S k) order))
        /\ snap = snapshotBranches (after s0 args (take (S k) order))
  | Returned (Ok o) =>
      exists (k : nat) (a : ThoughtData.t),
        order !! k = Some t /\ args !! t = Some a
        /\ returned (ProcessThought (after s0 args (take k order)) a) = Ok o
  | Returned (Err e) =>
      (t ∉ order) /\
      exists a : ThoughtData.t,
        args !! t = Some a /\ validateThoughtData a = Some e
  end.

(** Each caller of [order] occurs once and passed the validation. *)
Definition order_ok (args : list ThoughtData.t) (order : list nat) : Prop :=
  NoDup order /\
  forall t : nat, t ∈ order ->
    exists a : ThoughtData.t, args !! t = Some a /\ valid a.

Record Inv (s0 : SequentialThinkingServer) (args : list ThoughtData.t)
    (order : list nat) (c : config) : Prop := mkInv {
  inv_order : order_ok args order;
  inv_length : length (pcs c) = length args;
  inv_threads : forall (t : nat) (p : pc),
      pcs c !! t = Some p -> thread_inv s0 args order (srv c) t p;
  inv_exclusive : forall (t1 t2 : nat) (p1 p2 : pc),
      pcs c !! t1 = Some p1 -> pcs c !! t2 = Some p2 ->
      holds_lock p1 = true -> holds_lock p2 = true -> t1 = t2;
  inv_mutex :
    if mu c then
      exists (t : nat) (p : pc), pcs c !! t = Some p /\ holds_lock p = true
    else
      srv c = after s0 args order /\
      forall (t : nat) (p : pc), pcs c !! t = Some p -> holds_lock p = false
}.

(** ** A measure of the work left *)

(** The statements a caller at point [p] still has to execute, at most. *)
Definition remaining (p : pc) : nat :=
  match p with
  | AtValidate => 8
  | AtLock _ => 7
  | AtAppend _ => 6
  | AtRegister _ => 5
  | AtLen _ => 4
  | AtSnapshot _ _ => 3
  | AtUnlock _ _ _ => 2
  | AtLog _ _ _ => 1
  | Returned _ => 0
  end.

Definition work (c : config) : nat := sum_list (remaining <$> pcs c).

(** ** Inputs and servers used in the examples *)

(** A record that is neither a revision nor asks for more thoughts. *)
Definition thought (text : string) (next : bool) (number total : Z)
    (branchFrom : Z) (branchId : string) : ThoughtData.t :=
  ThoughtData.mk text next number total false 0 branchFrom branchId false.

Definition total_raised_input : ThoughtData.t :=
  thought "first" true 2 1 0 "".

Definition known_a : SequentialThinkingServer :=
  server_after (ProcessThought (NewSequentialThinkingServer false)
                  (thought "first" true 1 1 (-1) "a")).

Definition two_valid : list ThoughtData.t :=
  [thought "first" true 2 1 (-1) "b"; thought "second" false 3 3 (-2) "b"].

Definition trigger_false_input : ThoughtData.t :=
  thought "third" false 1 1 1 "ignored".

Definition positive_branch_input : ThoughtData.t :=
  thought "first" true 1 1 1 "b".

Definition revision_input : ThoughtData.t :=
  ThoughtData.mk "revise" false 2 3 true 1 0 "" false.

Definition two_callers : list ThoughtData.t :=
  [thought "first" true 2 1 (-1) "b"; thought "second" false 3 3 (-2) "a"].

Definition two_callers_sched : list nat :=
  [0; 1; 1; 1; 1; 1; 1; 1; 0; 0; 1; 0; 0; 0; 0; 0]%nat.

Definition two_callers_end : config :=
  default (initial (NewSequentialThinkingServer false) two_callers)
    (exec two_callers two_callers_sched
       (initial (NewSequentialThinkingServer false) two_callers)).

(** ** Accepted inputs of a run *)

#[global] Instance valid_dec (input : ThoughtData.t) : Decision (valid input).
Proof. unfold valid. apply _. Defined.

(** ** The logging flag and the characters of a frame *)

(** The server with its logging flag set to [b]. *)
Definition with_logging (s : SequentialThinkingServer) (b : bool)
  : SequentialThinkingServer :=
  {| thoughtHistory := thoughtHistory s;
     branches := branches s;
     branchKeys := branchKeys s;
     enableThoughtLogging := b |}.

(** What an accepted call writes when the flag is set (lines 203-204). *)
Definition logged_line (input : ThoughtData.t) : string :=
  formatThought (normalize input) +:+ nl.

(** The escape character that starts a terminal colour sequence. *)
Definition esc : ascii := ascii_of_nat 27.

(** Whether the character [c] occurs in [s]. *)
Fixpoint occurs (c : ascii) (s : string) : bool :=
  match s with
  | EmptyString => false
  | String a s' => Ascii.eqb a c || occurs c s'
  end.

Definition revision_that_branches : ThoughtData.t :=
  ThoughtData.mk "revise" false 2 3 true 1 (-1) "b" false.

Definition two_callers_midway : config :=
  default (initial (NewSequentialThinkingServer false) two_callers)
    (exec two_callers [0; 1; 1; 1]%nat
       (initial (NewSequentialThinkingServer false) two_callers)).

(** ** The lines that concurrent callers have written *)

(** The line a caller with argument [a] has written once it is at [p]. *)
Definition line_of (a : ThoughtData.t) (p : pc) : list string :=
  match p with
  | Returned (Ok _) => [logged_line a]
  | _ => []
  end.

Definition returned_lines (args : list ThoughtData.t) (ps : list pc)
  : list string :=
  concat (zip_with line_of args ps).

Definition DiagInv (s0 : SequentialThinkingServer)
    (args : list ThoughtData.t) (c : config) : Prop :=
  enableThoughtLogging (srv c) = enableThoughtLogging s0 /\
  diag c ≡ₚ
    (if enableThoughtLogging s0 then returned_lines args (pcs c) else []).

(** ** Callers that run one after the other *)

(** The schedule of caller [t] running alone from entry to return: one
    step when its argument is rejected, eight otherwise. *)
Definition solo (t : nat) (a : ThoughtData.t) : list nat :=
  match validateThoughtData a with
  | Some _ => [t]
  | None => replicate 8 t
  end.

(** Caller 0 from entry to return, then caller 1, and so on. *)
Definition one_by_one (args : list ThoughtData.t) : list nat :=
  concat (imap solo args).

Definition two_callers_logged_end : config :=
  default (initial (NewSequentialThinkingServer true) two_callers)
    (exec two_callers two_callers_sched
       (initial (NewSequentialThinkingServer true) two_callers)).

(** ** The trigger in the words of the specification *)


Definition negative_branch_input : ThoughtData.t :=
  thought "first" true 1 1 (-1) "b".

(** The points after [Unlock]: the caller has left the locked section. *)
Definition left_section (p : pc) : bool :=
  match p with
  | AtLog _ _ _ | Returned (Ok _) => true
  | _ => false
  end.

(** Caller 0 validated, caller 1 through its locked section. *)
Definition two_callers_after_one : config :=
  default (initial (NewSequentialThinkingServer false) two_callers)
    (exec two_callers [0; 1; 1; 1; 1; 1; 1; 1]%nat
       (initial (NewSequentialThinkingServer false) two_callers)).

(** * Proofs *)

(** ** The cases of the repository's tests *)

Example test_branches_sorted :
  snd (run (NewSequentialThinkingServer false)
         [thought "first" true 2 1 (-1) "b";
          thought "second" false 3 3 (-2) "a"])
  = [Ok (Output.mk 2 2 true (Some ["b"]) 1);
     Ok (Output.mk 3 3 false (Some ["a"; "b"]) 2)].
Proof. vm_compute. reflexivity. Qed.

Example test_no_branch_non_negative :
  snd (run (NewSequentialThinkingServer false)
         [thought "third" false 1 1 1 "ignored"])
  = [Ok (Output.mk 1 1 false None 1)].
Proof. vm_compute. reflexivity. Qed.

Example test_format_default :
  formatThought (thought "think" false 3 3 0 "") =
  nl +:+ "┌" +:+ Repeat "─" 20 +:+ "┐" +:+ nl
     +:+ "│ \033[34m💭 Thought\033[0m 3/3" +:+ Repeat " " 2 +:+ " │" +:+ nl
     +:+ "├" +:+ Repeat "─" 20 +:+ "┤" +:+ nl
     +:+ "│ think" +:+ Repeat " " 13 +:+ " │" +:+ nl
     +:+ "└" +:+ Repeat "─" 20 +:+ "┘".
Proof. vm_compute. reflexivity. Qed.

(** ** The binary search *)

Section Search.
Variable f : nat -> bool.
Variable n : nat.

(** [f] is false, then true, on [0, n): what [sort.Search] asks of it. *)
Hypothesis f_mono :
  forall a b : nat, (a <= b)%nat -> (b < n)%nat -> f a = true -> f b = true.

Lemma half_between (i j : nat) :
  (i < j)%nat -> (i <= (i + j) / 2)%nat /\ ((i + j) / 2 < j)%nat.
Proof.
  intros Hij. split.
  - apply Nat.div_le_lower_bound; lia.
  - apply Nat.Div0.div_lt_upper_bound; lia.
Qed.

Lemma Search_loop_range (fuel i j : nat) :
  (i <= j)%nat ->
  (i <= Search_loop fuel f i j)%nat /\ (Search_loop fuel f i j <= j)%nat.
Proof using Type.
  revert i j. induction fuel as [|fuel IH]; intros i j Hij; cbn [Search_loop].
  - lia.
  - destruct (Nat.ltb_spec i j) as [Hlt|Hge]; [|lia].
    destruct (half_between i j Hlt) as [Hlo Hhi].
    destruct (f ((i + j) / 2)); cbn [negb].
    + destruct (IH i ((i + j) / 2)%nat Hlo). lia.
    + destruct (IH (S ((i + j) / 2)) j ltac:(lia)). lia.
Qed.

Lemma Search_loop_spec (fuel i j : nat) :
  (j - i <= fuel)%nat -> (i <= j)%nat -> (j <= n)%nat ->
  (forall k : nat, (k < i)%nat -> f k = false) ->
  (forall k : nat, (j <= k)%nat -> (k < n)%nat -> f k = true) ->
  (forall k : nat, (k < Search_loop fuel f i j)%nat -> f k = false) /\
  (forall k : nat,
      (Search_loop fuel f i j <= k)%nat -> (k < n)%nat -> f k = true).
Proof using f_mono.
  revert i j. induction fuel as [|fuel IH]; intros i j Hfuel Hij Hjn Hlo Hhi.
  - cbn [Search_loop]. assert (i = j) as -> by lia. auto.
  - cbn [Search_loop]. destruct (Nat.ltb_spec i j) as [Hlt|Hge].
    + destruct (half_between i j Hlt) as [Hh1 Hh2].
      destruct (f ((i + j) / 2)) eqn:Hf; cbn [negb].
      * apply IH; [lia | lia | lia | assumption |].
        intros k Hk Hkn. apply (f_mono ((i + j) / 2)); [lia | lia | exact Hf].
      * apply IH; [lia | lia | lia | | assumption].
        intros k Hk. destruct (f k) eqn:Hfk; [|reflexivity].
        rewrite <- Hf. symmetry.
        apply (f_mono k); [lia | lia | exact Hfk].
    + assert (i = j) as -> by lia. auto.
Qed.

(** The loop ends before the fuel does: any fuel of at least [j - i]
    gives the same result. *)
Lemma Search_loop_fuel (fuel fuel' i j : nat) :
  (j - i <= fuel)%nat -> (j - i <= fuel')%nat ->
  Search_loop fuel f i j = Search_loop fuel' f i j.
Proof using Type.
  revert fuel' i j. induction fuel as [|fuel IH]; intros fuel' i j H1 H2.
  - destruct fuel' as [|fuel']; [reflexivity|]. cbn [Search_loop].
    destruct (Nat.ltb_spec i j); [lia | reflexivity].
  - destruct fuel' as [|fuel']; cbn [Search_loop];
      destruct (Nat.ltb_spec i j) as [Hlt|Hge]; try reflexivity; try lia.
    destruct (half_between i j Hlt) as [Hlo Hhi].
    destruct (f ((i + j) / 2)); cbn [negb]; apply IH; lia.
Qed.

Lemma sort_Search_le : (sort_Search n f <= n)%nat.
Proof using Type.
  unfold sort_Search. apply Search_loop_range. lia.
Qed.

Lemma sort_Search_spec :
  (forall k : nat, (k < sort_Search n f)%nat -> f k = false) /\
  (forall k : nat, (sort_Search n f <= k)%nat -> (k < n)%nat -> f k = true).
Proof using f_mono.
  unfold sort_Search. apply Search_loop_spec; try lia.
Qed.

End Search.

(** ** The search on sorted keys *)

Lemma leb_false_lt (x y : string) : String.leb x y = false -> lex_lt y x.
Proof.
  intros H. apply (total_not_strict (R := String.le)).
  unfold String.le. rewrite H. exact id.
Qed.

Lemma sorted_lookup_lt (l : list string) (i j : nat) (a b : string) :
  sortedKeys l -> l !! i = Some a -> l !! j = Some b -> (i < j)%nat ->
  lex_lt a b.
Proof.
  intros Hs Ha Hb Hij. rewrite <- (take_drop j l) in Hs.
  apply (StronglySorted_app_1_elem_of _ _ _ _ _ Hs).
  - apply elem_of_take. eauto.
  - apply list_elem_of_lookup. exists 0%nat.
    rewrite lookup_drop, Nat.add_0_r. exact Hb.
Qed.

Lemma ge_at_mono (keys : list string) (x : string) :
  sortedKeys keys ->
  forall a b : nat, (a <= b)%nat -> (b < length keys)%nat ->
    ge_at keys x a = true -> ge_at keys x b = true.
Proof.
  intros Hs a b Hab Hb. unfold ge_at.
  destruct (keys !! a) as [ka|] eqn:Ha; [|discriminate].
  destruct (lookup_lt_is_Some_2 keys b Hb) as [kb Hkb]. rewrite Hkb.
  intros Hx. destruct (decide (a = b)) as [->|Hne].
  - congruence.
  - apply Is_true_true. apply Is_true_true in Hx.
    change (String.le x kb). change (String.le x ka) in Hx.
    etrans; [exact Hx|].
    apply (sorted_lookup_lt keys a b ka kb); auto. lia.
Qed.

Lemma SearchStrings_le (keys : list string) (x : string) :
  (sort_SearchStrings keys x <= length keys)%nat.
Proof. apply sort_Search_le. Qed.

Lemma SearchStrings_below (keys : list string) (x : string) :
  sortedKeys keys ->
  Forall (fun k => lex_lt k x) (take (sort_SearchStrings keys x) keys).
Proof.
  intros Hs. apply Forall_lookup. intros j k Hj.
  apply lookup_take_Some in Hj as [Hk Hlt].
  destruct (sort_Search_spec _ _ (ge_at_mono keys x Hs)) as [Hlo _].
  specialize (Hlo j Hlt). unfold ge_at in Hlo. rewrite Hk in Hlo.
  apply leb_false_lt. exact Hlo.
Qed.

Lemma SearchStrings_above (keys : list string) (x : string) :
  sortedKeys keys ->
  Forall (String.le x) (drop (sort_SearchStrings keys x) keys).
Proof.
  intros Hs. apply Forall_lookup. intros j k Hj.
  rewrite lookup_drop in Hj.
  destruct (sort_Search_spec _ _ (ge_at_mono keys x Hs)) as [_ Hhi].
  assert (Hlen : (sort_SearchStrings keys x + j < length keys)%nat)
    by (eapply lookup_lt_Some; exact Hj).
  specialize (Hhi (sort_SearchStrings keys x + j)%nat ltac:(unfold sort_SearchStrings; lia) Hlen).
  unfold ge_at in Hhi. rewrite Hj in Hhi.
  apply Is_true_true. exact Hhi.
Qed.

(** ** The shift-and-store is an insertion at [insertAt] *)

Lemma copy_shift {A} (keys : list A) (z : A) (i : nat) :
  (i < length keys)%nat ->
  copy (drop (S i) (keys ++ [z])) (drop i (keys ++ [z])) = drop i keys.
Proof.
  intros Hi. unfold copy.
  rewrite !length_drop, !length_app. simpl.
  rewrite (drop_ge (drop (S i) (keys ++ [z]))) by (rewrite length_drop, length_app; simpl; lia).
  rewrite app_nil_r.
  rewrite drop_app_le by lia.
  rewrite take_app_length'; [reflexivity|].
  rewrite length_drop. lia.
Qed.

Lemma shift_store {A} (keys : list A) (z x : A) (i : nat) :
  (i < length keys)%nat ->
  <[i := x]> (shift_right (keys ++ [z]) i) = take i keys ++ x :: drop i keys.
Proof.
  intros Hi. unfold shift_right. rewrite copy_shift by exact Hi.
  destruct (lookup_lt_is_Some_2 keys i Hi) as [k Hk].
  rewrite take_app_le by lia.
  rewrite (take_S_r keys i k Hk).
  rewrite <- app_assoc. simpl.
  rewrite insert_app_r_alt by (rewrite length_take; lia).
  rewrite length_take. replace (i - i `min` length keys)%nat with 0%nat by lia.
  reflexivity.
Qed.

(** [insertBranchKey] in one line: the keys with [branchID] put at the
    position the search returns, unless it is already there. *)
Lemma insertBranchKey_eq (keys : list string) (x : string) :
  let i := sort_SearchStrings keys x in
  insertBranchKey keys x =
    if bool_decide (keys !! i = Some x) then keys
    else take i keys ++ x :: drop i keys.
Proof.
  intros i. unfold insertBranchKey. fold i.
  pose proof (SearchStrings_le keys x) as Hle. fold i in Hle.
  destruct (Nat.eqb_spec i (length keys)) as [Heq|Hne].
  - rewrite bool_decide_eq_false_2.
    + rewrite Heq, firstn_all, drop_all. reflexivity.
    + rewrite Heq. rewrite lookup_ge_None_2 by lia. discriminate.
  - destruct (lookup_lt_is_Some_2 keys i ltac:(lia)) as [k Hk]. rewrite Hk.
    destruct (String.eqb_spec k x) as [->|Hkx]; simpl.
    + rewrite bool_decide_eq_true_2; reflexivity.
    + rewrite bool_decide_eq_false_2 by congruence.
      apply shift_store. lia.
Qed.

Lemma elem_of_insertBranchKey (keys : list string) (x y : string) :
  y ∈ insertBranchKey keys x <-> y = x \/ y ∈ keys.
Proof.
  rewrite insertBranchKey_eq. cbv zeta. case_bool_decide as Hx.
  - split; [auto|]. intros [->|H]; [|exact H].
    apply list_elem_of_lookup. eauto.
  - set (i := sort_SearchStrings keys x) in *.
    assert (Hk : y ∈ keys <-> y ∈ take i keys \/ y ∈ drop i keys)
      by (rewrite <- elem_of_app, take_drop; reflexivity).
    rewrite elem_of_app, elem_of_cons, Hk. tauto.
Qed.

Lemma insertBranchKey_sorted (keys : list string) (x : string) :
  sortedKeys keys -> sortedKeys (insertBranchKey keys x).
Proof.
  intros Hs. rewrite insertBranchKey_eq. cbv zeta.
  case_bool_decide as Hx; [exact Hs|].
  set (i := sort_SearchStrings keys x) in *.
  pose proof (SearchStrings_below keys x Hs) as Hlo.
  pose proof (SearchStrings_above keys x Hs) as Hhi.
  fold i in Hlo, Hhi.
  assert (Hparts : sortedKeys (take i keys ++ drop i keys))
    by (rewrite take_drop; exact Hs).
  apply StronglySorted_app in Hparts as (Hcross & Hl & Hr).
  assert (Hgt : Forall (lex_lt x) (drop i keys)).
  { apply Forall_lookup. intros j k Hj.
    pose proof (proj1 (Forall_lookup _ _) Hhi) as Hge.
    apply strict_spec_alt. split; [exact (Hge j k Hj)|]. intros <-.
    rewrite lookup_drop in Hj.
    destruct j as [|j].
    - rewrite Nat.add_0_r in Hj. contradiction.
    - destruct (lookup_lt_is_Some_2 keys i) as [k0 Hk0].
      { apply lookup_lt_Some in Hj. lia. }
      assert (Hlt : lex_lt k0 x)
        by (apply (sorted_lookup_lt keys i (i + S j) k0 x); auto; lia).
      apply Hlt. apply (Hge 0%nat k0).
      rewrite lookup_drop, Nat.add_0_r. exact Hk0. }
  apply StronglySorted_app. split; [|split].
  - intros x1 x2 H1 H2. apply elem_of_cons in H2 as [->|H2].
    + rewrite Forall_forall in Hlo. apply Hlo, H1.
    + apply Hcross; assumption.
  - exact Hl.
  - apply StronglySorted_cons. split; assumption.
Qed.

(** ** One call *)

Lemma valid_iff (input : ThoughtData.t) :
  valid input <->
  ThoughtData.Thought input <> "" /\ 0 < ThoughtData.ThoughtNumber input
  /\ 0 < ThoughtData.TotalThoughts input.
Proof.
  unfold valid, validateThoughtData.
  destruct (String.eqb_spec (ThoughtData.Thought input) "");
    [split; [discriminate | tauto]|].
  destruct (Z.leb_spec (ThoughtData.ThoughtNumber input) 0);
    [split; [discriminate | lia]|].
  destruct (Z.leb_spec (ThoughtData.TotalThoughts input) 0);
    [split; [discriminate | lia]|].
  split; auto.
Qed.

Lemma normalize_fields (input : ThoughtData.t) :
  ThoughtData.ThoughtNumber (normalize input) = ThoughtData.ThoughtNumber input
  /\ ThoughtData.NextThoughtNeeded (normalize input)
     = ThoughtData.NextThoughtNeeded input
  /\ ThoughtData.BranchFromThought (normalize input)
     = ThoughtData.BranchFromThought input
  /\ ThoughtData.BranchId (normalize input) = ThoughtData.BranchId input
  /\ ThoughtData.TotalThoughts (normalize input)
     = Z.max (ThoughtData.ThoughtNumber input) (ThoughtData.TotalThoughts input).
Proof.
  unfold normalize.
  destruct (Z.gtb_spec (ThoughtData.ThoughtNumber input)
              (ThoughtData.TotalThoughts input)); simpl;
    repeat split; lia.
Qed.

Lemma branchTrigger_normalize (input : ThoughtData.t) :
  branchTrigger (normalize input) = branchTrigger input.
Proof.
  unfold branchTrigger.
  destruct (normalize_fields input) as (_ & _ & -> & -> & _). reflexivity.
Qed.

Lemma registerBranch_normalize (s : SequentialThinkingServer)
    (input : ThoughtData.t) :
  registerBranch s (normalize input) = registerBranch s input.
Proof.
  unfold registerBranch. rewrite branchTrigger_normalize.
  destruct (normalize_fields input) as (_ & _ & _ & -> & _). reflexivity.
Qed.

Lemma ProcessThought_valid (s : SequentialThinkingServer)
    (input : ThoughtData.t) :
  valid input ->
  server_after (ProcessThought s input) = accepted s input /\
  returned (ProcessThought s input) =
    Ok {| Output.ThoughtNumber := ThoughtData.ThoughtNumber input;
          Output.TotalThoughts :=
            Z.max (ThoughtData.ThoughtNumber input)
                  (ThoughtData.TotalThoughts input);
          Output.NextThoughtNeeded := ThoughtData.NextThoughtNeeded input;
          Output.Branches := snapshotBranches (accepted s input);
          Output.ThoughtHistoryLength := historyLen (accepted s input) |}.
Proof.
  intros Hv. unfold ProcessThought, locked, accepted. rewrite Hv.
  rewrite registerBranch_normalize.
  destruct (normalize_fields input) as (-> & -> & _ & _ & ->).
  split; reflexivity.
Qed.

Lemma ProcessThought_invalid (s : SequentialThinkingServer)
    (input : ThoughtData.t) (e : error) :
  validateThoughtData input = Some e ->
  ProcessThought s input = mkCall s [] (Err e).
Proof. intros He. unfold ProcessThought. rewrite He. reflexivity. Qed.

Lemma registerBranch_history (s : SequentialThinkingServer)
    (input : ThoughtData.t) :
  thoughtHistory (registerBranch s input) = thoughtHistory s.
Proof.
  unfold registerBranch. destruct (branchTrigger input); [|reflexivity].
  case_bool_decide; reflexivity.
Qed.

Lemma accepted_historyLen (s : SequentialThinkingServer)
    (input : ThoughtData.t) :
  historyLen (accepted s input) = historyLen s + 1.
Proof.
  unfold historyLen, accepted. rewrite registerBranch_history. simpl.
  rewrite length_app. simpl. lia.
Qed.

(** ** The invariant of the branch index *)

Lemma consistent_new (b : bool) : consistent (NewSequentialThinkingServer b).
Proof.
  split; simpl.
  - constructor.
  - intros x. rewrite elem_of_nil, elem_of_empty. tauto.
Qed.

Lemma registerBranch_consistent (s : SequentialThinkingServer)
    (input : ThoughtData.t) :
  consistent s -> consistent (registerBranch s input).
Proof.
  intros [Hs Hk]. unfold registerBranch.
  destruct (branchTrigger input); [|split; assumption].
  case_bool_decide as Hin; [split; assumption|].
  split; simpl.
  - apply insertBranchKey_sorted, Hs.
  - intros x. rewrite elem_of_insertBranchKey, elem_of_union, elem_of_singleton.
    specialize (Hk x). tauto.
Qed.

Lemma ProcessThought_consistent (s : SequentialThinkingServer)
    (input : ThoughtData.t) :
  consistent s -> consistent (server_after (ProcessThought s input)).
Proof.
  intros Hc. destruct (validateThoughtData input) as [e|] eqn:Hv.
  - rewrite (ProcessThought_invalid s input e Hv). exact Hc.
  - destruct (ProcessThought_valid s input Hv) as [-> _].
    apply registerBranch_consistent. destruct Hc as [Hs Hk].
    split; assumption.
Qed.

Lemma run_consistent (inputs : list ThoughtData.t)
    (s : SequentialThinkingServer) :
  consistent s -> consistent (fst (run s inputs)).
Proof.
  revert s. induction inputs as [|input rest IH]; intros s Hc; simpl.
  - exact Hc.
  - specialize (IH _ (ProcessThought_consistent s input Hc)).
    destruct (run (server_after (ProcessThought s input)) rest). exact IH.
Qed.

(** ** Runs *)

Lemma run_cons (s : SequentialThinkingServer) (input : ThoughtData.t)
    (rest : list ThoughtData.t) :
  run s (input :: rest) =
    (fst (run (server_after (ProcessThought s input)) rest),
     returned (ProcessThought s input)
       :: snd (run (server_after (ProcessThought s input)) rest)).
Proof.
  simpl. destruct (run (server_after (ProcessThought s input)) rest).
  reflexivity.
Qed.

Lemma sortedKeys_NoDup (l : list string) : sortedKeys l -> NoDup l.
Proof.
  induction 1 as [|x l Hs IH Hall]; constructor; [|exact IH].
  intros Hin. rewrite Forall_forall in Hall.
  exact (irreflexivity lex_lt x (Hall x Hin)).
Qed.

Lemma registerBranch_keeps (s : SequentialThinkingServer)
    (input : ThoughtData.t) (x : string) :
  x ∈ branchKeys s -> x ∈ branchKeys (registerBranch s input).
Proof.
  intros Hx. unfold registerBranch. destruct (branchTrigger input); [|exact Hx].
  case_bool_decide; [exact Hx|]. simpl.
  apply elem_of_insertBranchKey. right. exact Hx.
Qed.

Lemma ProcessThought_keeps (s : SequentialThinkingServer)
    (input : ThoughtData.t) (x : string) :
  x ∈ branchKeys s -> x ∈ branchKeys (server_after (ProcessThought s input)).
Proof.
  intros Hx. destruct (validateThoughtData input) as [e|] eqn:Hv.
  - rewrite (ProcessThought_invalid s input e Hv). exact Hx.
  - destruct (ProcessThought_valid s input Hv) as [-> _].
    apply registerBranch_keeps. exact Hx.
Qed.

Lemma run_keeps (inputs : list ThoughtData.t) (s : SequentialThinkingServer)
    (x : string) :
  x ∈ branchKeys s -> x ∈ branchKeys (fst (run s inputs)).
Proof.
  revert s. induction inputs as [|input rest IH]; intros s Hx.
  - exact Hx.
  - rewrite run_cons. simpl. apply IH, ProcessThought_keeps, Hx.
Qed.

Lemma snapshotBranches_Some (s : SequentialThinkingServer) (l : list string) :
  snapshotBranches s = Some l -> l = branchKeys s /\ l <> [].
Proof.
  unfold snapshotBranches. destruct (branchKeys s) as [|k ks]; simpl.
  - discriminate.
  - intros [= <-]. split; [reflexivity | discriminate].
Qed.

Lemma snapshotBranches_None (s : SequentialThinkingServer) :
  snapshotBranches s = None <-> branchKeys s = [].
Proof.
  unfold snapshotBranches. destruct (branchKeys s); simpl; split;
    congruence.
Qed.

(** What an [Ok] result says about the server right after its call. *)
Lemma ProcessThought_Ok (s : SequentialThinkingServer)
    (input : ThoughtData.t) (o : Output.t) :
  returned (ProcessThought s input) = Ok o ->
  valid input /\
  Output.Branches o = snapshotBranches (server_after (ProcessThought s input))
  /\ Output.ThoughtHistoryLength o
     = historyLen (server_after (ProcessThought s input)).
Proof.
  intros Hr. destruct (validateThoughtData input) as [e|] eqn:Hv.
  - rewrite (ProcessThought_invalid s input e Hv) in Hr. discriminate.
  - destruct (ProcessThought_valid s input Hv) as [Hs Ho].
    rewrite Ho in Hr. injection Hr as <-. rewrite Hs. auto.
Qed.

Lemma run_snapshots_sorted (inputs : list ThoughtData.t)
    (s : SequentialThinkingServer) (o : Output.t) (l : list string) :
  consistent s -> Ok o ∈ snd (run s inputs) -> Output.Branches o = Some l ->
  sortedKeys l /\ NoDup l.
Proof.
  revert s. induction inputs as [|input rest IH]; intros s Hc Hin Hl.
  - simpl in Hin. apply elem_of_nil in Hin. contradiction.
  - rewrite run_cons in Hin. simpl in Hin.
    pose proof (ProcessThought_consistent s input Hc) as Hc'.
    apply elem_of_cons in Hin as [Ho|Hin].
    + symmetry in Ho. apply ProcessThought_Ok in Ho as (_ & Hb & _).
      rewrite Hb in Hl. apply snapshotBranches_Some in Hl as [-> _].
      split; [|apply sortedKeys_NoDup]; apply Hc'.
    + exact (IH _ Hc' Hin Hl).
Qed.

Lemma run_snapshots_keep (inputs : list ThoughtData.t)
    (s : SequentialThinkingServer) (x : string) (o : Output.t) :
  x ∈ branchKeys s -> Ok o ∈ snd (run s inputs) ->
  exists l : list string, Output.Branches o = Some l /\ x ∈ l.
Proof.
  revert s. induction inputs as [|input rest IH]; intros s Hx Hin.
  - simpl in Hin. apply elem_of_nil in Hin. contradiction.
  - rewrite run_cons in Hin. simpl in Hin.
    pose proof (ProcessThought_keeps s input x Hx) as Hx'.
    apply elem_of_cons in Hin as [Ho|Hin].
    + symmetry in Ho. apply ProcessThought_Ok in Ho as (_ & Hb & _).
      rewrite Hb. unfold snapshotBranches.
      destruct (branchKeys (server_after (ProcessThought s input)))
        as [|k ks] eqn:Hk.
      * apply elem_of_nil in Hx'. contradiction.
      * simpl. eauto.
    + exact (IH _ Hx' Hin).
Qed.

Lemma run_snapshots_members (inputs : list ThoughtData.t)
    (s : SequentialThinkingServer) (x : string) (o : Output.t)
    (l : list string) :
  Ok o ∈ snd (run s inputs) -> Output.Branches o = Some l -> x ∈ l ->
  x ∈ branchKeys (fst (run s inputs)).
Proof.
  revert s. induction inputs as [|input rest IH]; intros s Hin Hl Hx.
  - simpl in Hin. apply elem_of_nil in Hin. contradiction.
  - rewrite run_cons in *. simpl in *.
    apply elem_of_cons in Hin as [Ho|Hin].
    + symmetry in Ho. apply ProcessThought_Ok in Ho as (_ & Hb & _).
      rewrite Hb in Hl. apply snapshotBranches_Some in Hl as [-> _].
      apply run_keeps, Hx.
    + exact (IH _ Hin Hl Hx).
Qed.

(** ** C3: the branch index stays sorted, duplicate-free and only grows *)

(** C3.  After every sequence of calls on a fresh server, [branchKeys] is
    strictly ascending in the bytewise string order, hence without
    duplicates, and so is the branch list of every snapshot returned on
    the way; an identifier that is in the index, or in a returned
    snapshot, is in the index after any further calls and in every
    snapshot these return. *)
Theorem branchKeys_sorted_unique_monotone (b : bool)
    (inputs more : list ThoughtData.t) :
  let s := fst (run (NewSequentialThinkingServer b) inputs) in
  (sortedKeys (branchKeys s) /\ NoDup (branchKeys s)) /\
  (forall (o : Output.t) (l : list string),
      Ok o ∈ snd (run (NewSequentialThinkingServer b) inputs) ->
      Output.Branches o = Some l ->
      (sortedKeys l /\ NoDup l) /\ forall x : string, x ∈ l -> x ∈ branchKeys s)
  /\
  (forall x : string, x ∈ branchKeys s ->
     x ∈ branchKeys (fst (run s more)) /\
     forall o : Output.t, Ok o ∈ snd (run s more) ->
       exists l : list string, Output.Branches o = Some l /\ x ∈ l).
Proof.
  intros s.
  assert (Hc : consistent s) by apply run_consistent, consistent_new.
  split; [|split].
  - split; [|apply sortedKeys_NoDup]; apply Hc.
  - intros o l Hin Hl. split.
    + exact (run_snapshots_sorted inputs _ o l (consistent_new b) Hin Hl).
    + intros x Hx. exact (run_snapshots_members inputs _ x o l Hin Hl Hx).
  - intros x Hx. split.
    + apply run_keeps, Hx.
    + intros o Hin. exact (run_snapshots_keep more s x o Hx Hin).
Qed.

(** ** C2: every accepted call counts once *)

Lemma run_history (inputs : list ThoughtData.t) (s : SequentialThinkingServer)
    (k : nat) (input : ThoughtData.t) :
  Forall valid inputs -> inputs !! k = Some input ->
  exists o : Output.t,
    snd (run s inputs) !! k = Some (Ok o) /\
    Output.ThoughtHistoryLength o = historyLen s + Z.of_nat (S k).
Proof.
  revert s k. induction inputs as [|i0 rest IH]; intros s k Hall Hk.
  - discriminate.
  - rewrite run_cons. simpl. inversion Hall as [|? ? Hv Hrest]; subst.
    destruct (ProcessThought_valid s i0 Hv) as [Hs Ho].
    destruct k as [|k]; simpl in *.
    + rewrite Ho. eexists. split; [reflexivity|]. simpl.
      apply accepted_historyLen.
    + destruct (IH (server_after (ProcessThought s i0)) k Hrest Hk)
        as (o & Hlook & Hlen).
      exists o. split; [exact Hlook|].
      rewrite Hlen, Hs, accepted_historyLen. lia.
Qed.

(** C2.  An accepted call makes the history one longer, whatever its
    branch fields and whatever the server already knows, and returns the
    length after its own increment; on a fresh server the [k]-th of [k]
    valid calls issued in sequence (counted from 1) returns [k]. *)
Theorem history_counts_every_valid_call :
  (forall (s : SequentialThinkingServer) (input : ThoughtData.t),
      valid input ->
      historyLen (server_after (ProcessThought s input)) = historyLen s + 1 /\
      exists o : Output.t,
        returned (ProcessThought s input) = Ok o /\
        Output.ThoughtHistoryLength o = historyLen s + 1) /\
  (forall (b : bool) (inputs : list ThoughtData.t) (k : nat)
          (input : ThoughtData.t),
      Forall valid inputs -> inputs !! k = Some input ->
      exists o : Output.t,
        snd (run (NewSequentialThinkingServer b) inputs) !! k = Some (Ok o) /\
        Output.ThoughtHistoryLength o = Z.of_nat (S k)).
Proof.
  split.
  - intros s input Hv. destruct (ProcessThought_valid s input Hv) as [Hs Ho].
    rewrite Hs, Ho, accepted_historyLen. split; [reflexivity|].
    eexists. split; reflexivity.
  - intros b inputs k input Hall Hk.
    destruct (run_history inputs (NewSequentialThinkingServer b) k input
                Hall Hk) as (o & Hlook & Hlen).
    exists o. split; [exact Hlook|]. rewrite Hlen. reflexivity.
Qed.

Lemma history_counts_every_valid_call_witness :
  (historyLen (server_after
                 (ProcessThought known_a (thought "again" true 2 2 (-1) "a")))
     = historyLen known_a + 1 /\
   exists o : Output.t,
     returned (ProcessThought known_a (thought "again" true 2 2 (-1) "a"))
       = Ok o /\
     Output.ThoughtHistoryLength o = historyLen known_a + 1) /\
  (exists o : Output.t,
     snd (run (NewSequentialThinkingServer false) two_valid) !! 1%nat
       = Some (Ok o) /\
     Output.ThoughtHistoryLength o = Z.of_nat 2).
Proof.
  split.
  - apply (proj1 history_counts_every_valid_call known_a
             (thought "again" true 2 2 (-1) "a")).
    reflexivity.
  - apply (proj2 history_counts_every_valid_call false two_valid 1%nat
             (thought "second" false 3 3 (-2) "b")).
    + repeat constructor.
    + reflexivity.
Defined.

(** ** C4: validation *)

(** C4.  [ProcessThought] validates first, and the first failing rule
    decides the error: an empty text gives the [thought] error; otherwise
    a number [<= 0] gives the [thoughtNumber] error; otherwise a total
    [<= 0] gives the [totalThoughts] error; otherwise the call succeeds.
    A call that returns an error leaves the whole server as it was and
    writes nothing. *)
Theorem validation_order_and_no_mutation (s : SequentialThinkingServer)
    (input : ThoughtData.t) :
  let c := ProcessThought s input in
  let e1 : error := "invalid thought: must be a string" in
  let e2 : error := "invalid thoughtNumber: must be a number > 0" in
  let e3 : error := "invalid totalThoughts: must be a number > 0" in
  (InvalidInput "thought" e1 /\ InvalidInput "thoughtNumber" e2
   /\ InvalidInput "totalThoughts" e3) /\
  (ThoughtData.Thought input = "" -> returned c = Err e1) /\
  (ThoughtData.Thought input <> "" -> ThoughtData.ThoughtNumber input <= 0 ->
   returned c = Err e2) /\
  (ThoughtData.Thought input <> "" -> 0 < ThoughtData.ThoughtNumber input ->
   ThoughtData.TotalThoughts input <= 0 -> returned c = Err e3) /\
  (ThoughtData.Thought input <> "" -> 0 < ThoughtData.ThoughtNumber input ->
   0 < ThoughtData.TotalThoughts input ->
   exists o : Output.t, returned c = Ok o) /\
  (forall e : error, returned c = Err e ->
     server_after c = s /\ stderr c = []
     /\ historyLen (server_after c) = historyLen s
     /\ branches (server_after c) = branches s
     /\ branchKeys (server_after c) = branchKeys s).
Proof.
  intros c e1 e2 e3. subst c.
  split; [repeat split; reflexivity|].
  unfold ProcessThought, validateThoughtData.
  destruct (String.eqb_spec (ThoughtData.Thought input) "") as [He|He].
  { simpl. repeat split; intros; try reflexivity; try contradiction. }
  destruct (Z.leb_spec (ThoughtData.ThoughtNumber input) 0) as [Hn|Hn].
  { simpl. repeat split; intros; try reflexivity; try contradiction; lia. }
  destruct (Z.leb_spec (ThoughtData.TotalThoughts input) 0) as [Ht|Ht].
  { simpl. repeat split; intros; try reflexivity; try contradiction; lia. }
  simpl. split; [intros; contradiction|].
  split; [intros; lia|]. split; [intros; lia|].
  split; [intros; eexists; reflexivity|].
  intros e. discriminate.
Qed.

(** ** C5: the estimate is only raised *)

(** C5.  A valid input is never rejected; the returned total is the
    step number when that exceeds the estimate and the estimate itself
    otherwise, so it is never below the estimate. *)
Theorem total_raised_to_number (s : SequentialThinkingServer)
    (input : ThoughtData.t) :
  valid input ->
  exists o : Output.t,
    returned (ProcessThought s input) = Ok o /\
    (ThoughtData.ThoughtNumber input > ThoughtData.TotalThoughts input ->
     Output.TotalThoughts o = ThoughtData.ThoughtNumber input) /\
    (ThoughtData.ThoughtNumber input <= ThoughtData.TotalThoughts input ->
     Output.TotalThoughts o = ThoughtData.TotalThoughts input) /\
    ThoughtData.TotalThoughts input <= Output.TotalThoughts o.
Proof.
  intros Hv. destruct (ProcessThought_valid s input Hv) as [_ Ho].
  eexists. split; [exact Ho|]. simpl. repeat split; lia.
Qed.

Lemma total_raised_to_number_witness :
  exists o : Output.t,
    returned (ProcessThought (NewSequentialThinkingServer false)
                total_raised_input) = Ok o /\
    (ThoughtData.ThoughtNumber total_raised_input
       > ThoughtData.TotalThoughts total_raised_input ->
     Output.TotalThoughts o = ThoughtData.ThoughtNumber total_raised_input) /\
    (ThoughtData.ThoughtNumber total_raised_input
       <= ThoughtData.TotalThoughts total_raised_input ->
     Output.TotalThoughts o = ThoughtData.TotalThoughts total_raised_input) /\
    ThoughtData.TotalThoughts total_raised_input <= Output.TotalThoughts o.
Proof.
  apply (total_raised_to_number (NewSequentialThinkingServer false)
           total_raised_input).
  reflexivity.
Defined.

(** ** C10: number and flag are echoed *)

(** C10.  For a valid input the snapshot carries the input's step number
    and [nextThoughtNeeded] flag as they came; normalisation touches the
    total only. *)
Theorem number_and_flag_echoed (s : SequentialThinkingServer)
    (input : ThoughtData.t) :
  valid input ->
  (exists o : Output.t,
    returned (ProcessThought s input) = Ok o /\
    Output.ThoughtNumber o = ThoughtData.ThoughtNumber input /\
    Output.NextThoughtNeeded o = ThoughtData.NextThoughtNeeded input) /\
  ThoughtData.ThoughtNumber (normalize input)
    = ThoughtData.ThoughtNumber input /\
  ThoughtData.NextThoughtNeeded (normalize input)
    = ThoughtData.NextThoughtNeeded input.
Proof.
  intros Hv. destruct (ProcessThought_valid s input Hv) as [_ Ho].
  destruct (normalize_fields input) as (Hn & Hf & _).
  split; [|split; assumption].
  eexists. split; [exact Ho|]. simpl. split; reflexivity.
Qed.

Lemma number_and_flag_echoed_witness :
  (exists o : Output.t,
    returned (ProcessThought (NewSequentialThinkingServer false)
                total_raised_input) = Ok o /\
    Output.ThoughtNumber o = 2 /\ Output.NextThoughtNeeded o = true) /\
  ThoughtData.ThoughtNumber (normalize total_raised_input) = 2 /\
  ThoughtData.NextThoughtNeeded (normalize total_raised_input) = true.
Proof.
  apply (number_and_flag_echoed (NewSequentialThinkingServer false)
           total_raised_input).
  reflexivity.
Defined.

(** ** C6: what is registered without the trigger *)

Lemma branchTrigger_false_iff (input : ThoughtData.t) :
  branchTrigger input = false <->
  0 <= ThoughtData.BranchFromThought input \/ ThoughtData.BranchId input = "".
Proof.
  unfold branchTrigger.
  destruct (Z.ltb_spec (ThoughtData.BranchFromThought input) 0);
    destruct (String.eqb_spec (ThoughtData.BranchId input) ""); simpl;
    split; auto; try lia; try tauto.
  intros [?|?]; [lia | contradiction].
Qed.

(** When the condition that line 180 tests is false ([branchFromThought]
    is not negative, or [branchId] is empty), an accepted call leaves the
    branch set and the key list as they were, whatever [branchId] is: the
    returned list is the one the server had, and it is absent on a fresh
    server. *)
Lemma unchanged_when_condition_false (s : SequentialThinkingServer)
    (input : ThoughtData.t) :
  valid input -> branchTrigger input = false ->
  branches (server_after (ProcessThought s input)) = branches s /\
  branchKeys (server_after (ProcessThought s input)) = branchKeys s /\
  exists o : Output.t,
    returned (ProcessThought s input) = Ok o /\
    Output.Branches o = snapshotBranches s /\
    (forall (l : list string) (x : string),
        Output.Branches o = Some l -> x ∈ l -> x ∈ branchKeys s) /\
    (forall b : bool, s = NewSequentialThinkingServer b ->
        Output.Branches o = None).
Proof.
  intros Hv Hg. destruct (ProcessThought_valid s input Hv) as [Hs Ho].
  assert (Ha : accepted s input = appendHistory s)
    by (unfold accepted, registerBranch; rewrite Hg; reflexivity).
  rewrite Hs, Ho, Ha. simpl. split; [reflexivity|]. split; [reflexivity|].
  eexists. split; [reflexivity|]. simpl.
  split; [reflexivity|]. split.
  - intros l x Hl Hx. apply snapshotBranches_Some in Hl as [-> _]. exact Hx.
  - intros b ->. reflexivity.
Qed.



Example negative_branchFrom_output :
  returned (ProcessThought (NewSequentialThinkingServer false)
              negative_branch_input)
  = Ok (Output.mk 1 1 true (Some ["b"]) 1).
Proof. vm_compute. reflexivity. Qed.

(** ** C9: the branch list is absent exactly when nothing was registered *)

Ltac unions :=
  apply set_eq; intros ?;
  rewrite ?elem_of_union, ?elem_of_singleton, ?elem_of_empty; try tauto.

Lemma registerBranch_branches (s : SequentialThinkingServer)
    (input : ThoughtData.t) :
  branches (registerBranch s input) =
    (if branchTrigger input then {[ThoughtData.BranchId input]} else ∅)
      ∪ branches s.
Proof.
  unfold registerBranch. destruct (branchTrigger input); simpl.
  - case_bool_decide as Hin; simpl; [|reflexivity].
    unions. split; [tauto|]. intros [->|Hy]; assumption.
  - unions.
Qed.

Lemma run_branches (inputs : list ThoughtData.t)
    (s : SequentialThinkingServer) :
  branches (fst (run s inputs)) = branches s ∪ registered inputs.
Proof.
  revert s. induction inputs as [|input rest IH]; intros s.
  - simpl. unions.
  - rewrite run_cons. simpl. rewrite IH.
    destruct (validateThoughtData input) as [e|] eqn:Hv.
    + rewrite (ProcessThought_invalid s input e Hv). simpl. unions.
    + destruct (ProcessThought_valid s input Hv) as [-> _].
      unfold accepted. rewrite registerBranch_branches. simpl. unions.
Qed.

Lemma run_app (l1 l2 : list ThoughtData.t) (s : SequentialThinkingServer) :
  fst (run s (l1 ++ l2)) = fst (run (fst (run s l1)) l2).
Proof.
  revert s. induction l1 as [|input rest IH]; intros s.
  - reflexivity.
  - rewrite <- app_comm_cons, !run_cons. simpl. apply IH.
Qed.

Lemma consistent_keys_nil (s : SequentialThinkingServer) :
  consistent s -> (branchKeys s = [] <-> branches s = ∅).
Proof.
  intros [_ Hk]. split.
  - intros Hnil. apply set_eq. intros x. rewrite <- Hk, Hnil.
    rewrite elem_of_nil, elem_of_empty. tauto.
  - intros Hempty. destruct (branchKeys s) as [|k ks]; [reflexivity|].
    exfalso. apply (not_elem_of_empty (C := gset string) k).
    rewrite <- Hempty. apply Hk. left.
Qed.

(** C9.  For an accepted call on a server reached from a fresh one, the
    returned branch list is absent exactly when the branch set is empty
    after the call, that is when no call so far, this one included, has
    registered an identifier; a list that is present is [branchKeys] as it
    stands after the call, not empty, with exactly the members of the
    branch set. *)
Theorem snapshot_nil_iff_no_branch (b : bool) (inputs : list ThoughtData.t)
    (input : ThoughtData.t) :
  valid input ->
  let s := fst (run (NewSequentialThinkingServer b) inputs) in
  let c := ProcessThought s input in
  exists o : Output.t,
    returned c = Ok o /\
    (Output.Branches o = None <-> branches (server_after c) = ∅) /\
    (Output.Branches o = None <-> registered (inputs ++ [input]) = ∅) /\
    (forall l : list string, Output.Branches o = Some l ->
       l = branchKeys (server_after c) /\ l <> [] /\
       forall x : string, x ∈ l <-> x ∈ branches (server_after c)).
Proof.
  intros Hv s c.
  assert (Hc : consistent (server_after c)).
  { apply ProcessThought_consistent, run_consistent, consistent_new. }
  assert (Hreg : branches (server_after c) = registered (inputs ++ [input])).
  { subst c s.
    change (server_after (ProcessThought ?s0 input))
      with (fst (run s0 [input])).
    rewrite <- run_app, run_branches. simpl. unions. }
  destruct (ProcessThought_valid s input Hv) as [Hs Ho]. fold c in Hs, Ho.
  eexists. split; [exact Ho|]. simpl. rewrite <- Hs.
  assert (Hnone : snapshotBranches (server_after c) = None
                  <-> branches (server_after c) = ∅).
  { rewrite snapshotBranches_None. apply consistent_keys_nil, Hc. }
  split; [exact Hnone|]. split; [rewrite <- Hreg; exact Hnone|].
  intros l Hl. apply snapshotBranches_Some in Hl as [-> Hne].
  split; [reflexivity|]. split; [exact Hne|]. apply Hc.
Qed.

Lemma snapshot_nil_iff_no_branch_witness :
  exists o : Output.t,
    returned (ProcessThought
                (fst (run (NewSequentialThinkingServer false) two_valid))
                trigger_false_input) = Ok o /\
    (Output.Branches o = None <->
     branches (server_after
                 (ProcessThought
                    (fst (run (NewSequentialThinkingServer false) two_valid))
                    trigger_false_input)) = ∅) /\
    (Output.Branches o = None <->
     registered (two_valid ++ [trigger_false_input]) = ∅) /\
    (forall l : list string, Output.Branches o = Some l ->
       l = branchKeys
             (server_after
                (ProcessThought
                   (fst (run (NewSequentialThinkingServer false) two_valid))
                   trigger_false_input)) /\ l <> [] /\
       forall x : string,
         x ∈ l <->
         x ∈ branches
               (server_after
                  (ProcessThought
                     (fst (run (NewSequentialThinkingServer false) two_valid))
                     trigger_false_input))).
Proof.
  apply (snapshot_nil_iff_no_branch false two_valid trigger_false_input).
  reflexivity.
Defined.

(** ** C1: a positive [branchFromThought] registers nothing *)

Lemma accepted_trigger_false (s : SequentialThinkingServer)
    (input : ThoughtData.t) :
  branchTrigger input = false -> accepted s input = appendHistory s.
Proof. intros Hg. unfold accepted, registerBranch. rewrite Hg. reflexivity. Qed.

(** C1 (what the code does instead).  The condition of line 180 asks for a
    negative [branchFromThought].  A valid record whose [branchFromThought]
    is a positive step number never registers its [branchId], new and
    non-empty as it may be: branch set and key list stay as they were, and
    the identifier is not in the returned list. *)
Theorem positive_branchFrom_registers_nothing (s : SequentialThinkingServer)
    (input : ThoughtData.t) :
  valid input -> 0 < ThoughtData.BranchFromThought input ->
  ThoughtData.BranchId input <> "" ->
  ThoughtData.BranchId input ∉ branches s ->
  branches (server_after (ProcessThought s input)) = branches s /\
  branchKeys (server_after (ProcessThought s input)) = branchKeys s /\
  exists o : Output.t,
    returned (ProcessThought s input) = Ok o /\
    Output.Branches o = snapshotBranches s /\
    (consistent s ->
     forall l : list string, Output.Branches o = Some l ->
       ThoughtData.BranchId input ∉ l).
Proof.
  intros Hv Hpos Hid Hnew.
  assert (Hg : branchTrigger input = false)
    by (apply branchTrigger_false_iff; left; lia).
  destruct (ProcessThought_valid s input Hv) as [Hs Ho].
  rewrite Hs, Ho, (accepted_trigger_false s input Hg). simpl.
  split; [reflexivity|]. split; [reflexivity|].
  eexists. split; [reflexivity|]. simpl. split; [reflexivity|].
  intros Hc l Hl Hin. apply snapshotBranches_Some in Hl as [-> _].
  apply Hnew, Hc, Hin.
Qed.

Lemma positive_branchFrom_registers_nothing_witness :
  branches (server_after
              (ProcessThought (NewSequentialThinkingServer false)
                 positive_branch_input)) = ∅ /\
  branchKeys (server_after
                (ProcessThought (NewSequentialThinkingServer false)
                   positive_branch_input)) = [] /\
  exists o : Output.t,
    returned (ProcessThought (NewSequentialThinkingServer false)
                positive_branch_input) = Ok o /\
    Output.Branches o = None /\
    (consistent (NewSequentialThinkingServer false) ->
     forall l : list string, Output.Branches o = Some l -> "b" ∉ l).
Proof.
  apply (positive_branchFrom_registers_nothing
           (NewSequentialThinkingServer false) positive_branch_input).
  - reflexivity.
  - reflexivity.
  - discriminate.
  - apply not_elem_of_empty.
Defined.

Example positive_branchFrom_output :
  returned (ProcessThought (NewSequentialThinkingServer false)
              positive_branch_input)
  = Ok (Output.mk 1 1 true None 1).
Proof. vm_compute. reflexivity. Qed.

(** ** C8: the header of a revision *)

Example test_format_revision_negative :
  headerContent
    (ThoughtData.mk "revise" false 1 2 true (-2) 0 "" false)
  = "🔄 Revision 1/2 (revising thought -2)".
Proof. vm_compute. reflexivity. Qed.

Example test_format_branch_negative :
  headerContent (thought "branch" false 2 3 (-1) "b1")
  = "🌿 Branch 2/3 (from thought -1, ID: b1)".
Proof. vm_compute. reflexivity. Qed.

Lemma append_nil_r (s : string) : s +:+ "" = s.
Proof.
  induction s as [|c s IH]; [reflexivity|].
  change (String c (s +:+ "") = String c s). f_equal. exact IH.
Qed.

(** C8 (what the code does instead).  The context of a revision is
    written only under [RevisesThought < 0] (line 103).  For a revision
    that names a step [R >= 0] the header is the prefix and [N/M] alone,
    without [(revising thought R)]. *)
Theorem revision_header_lacks_context (d : ThoughtData.t) :
  ThoughtData.IsRevision d = true -> 0 <= ThoughtData.RevisesThought d ->
  contextText d = "" /\
  headerContent d =
    "🔄 Revision " +:+ itoa (ThoughtData.ThoughtNumber d) +:+ "/"
      +:+ itoa (ThoughtData.TotalThoughts d).
Proof.
  intros Hrev Hr. unfold headerContent, contextText, prefixText.
  rewrite Hrev, (proj2 (Z.ltb_ge _ _) Hr).
  split; [reflexivity|].
  rewrite append_nil_r. reflexivity.
Qed.

Lemma revision_header_lacks_context_witness :
  contextText revision_input = "" /\
  headerContent revision_input = "🔄 Revision 2/3".
Proof.
  apply (revision_header_lacks_context revision_input).
  - reflexivity.
  - vm_compute. discriminate.
Defined.

Example revision_frame :
  formatThought revision_input =
  nl +:+ "┌" +:+ Repeat "─" 21 +:+ "┐" +:+ nl
     +:+ "│ \033[33m🔄 Revision\033[0m 2/3" +:+ Repeat " " 2 +:+ " │" +:+ nl
     +:+ "├" +:+ Repeat "─" 21 +:+ "┤" +:+ nl
     +:+ "│ revise" +:+ Repeat " " 13 +:+ " │" +:+ nl
     +:+ "└" +:+ Repeat "─" 21 +:+ "┘".
Proof. vm_compute. reflexivity. Qed.

(** ** Concurrent callers *)

Example two_callers_interleaved :
  let args := [thought "first" true 2 1 (-1) "b";
               thought "second" false 3 3 (-2) "a"] in
  exec args [0; 1; 1; 1; 1; 1; 1; 1; 0; 0; 1; 0; 0; 0; 0; 0]%nat
    (initial (NewSequentialThinkingServer false) args)
  = Some {| srv := fst (run (NewSequentialThinkingServer false)
                          [thought "second" false 3 3 (-2) "a";
                           thought "first" true 2 1 (-1) "b"]);
            mu := false; diag := [];
            pcs := [Returned (Ok (Output.mk 2 2 true (Some ["a"; "b"]) 2));
                    Returned (Ok (Output.mk 3 3 false (Some ["a"]) 1))] |}.
Proof. vm_compute. reflexivity. Qed.

Lemma accepted_normalize (s : SequentialThinkingServer) (a : ThoughtData.t) :
  accepted s (normalize a) = accepted s a.
Proof. unfold accepted. apply registerBranch_normalize. Qed.

Section Concurrent.
Variable s0 : SequentialThinkingServer.
Variable args : list ThoughtData.t.

Lemma after_snoc (order : list nat) (t : nat) :
  after s0 args (order ++ [t]) =
    server_after (ProcessThought (after s0 args order) (arg_of args t)).
Proof.
  unfold after, args_in. rewrite map_app, run_app. simpl.
  reflexivity.
Qed.

Lemma after_snoc_valid (order : list nat) (t : nat) (a : ThoughtData.t) :
  args !! t = Some a -> valid a ->
  after s0 args (order ++ [t]) = accepted (after s0 args order) a.
Proof.
  intros Ha Hv. rewrite after_snoc. unfold arg_of. rewrite Ha. simpl.
  apply ProcessThought_valid, Hv.
Qed.

Lemma thread_inv_free (order : list nat) (s s' : SequentialThinkingServer)
    (t : nat) (p : pc) :
  holds_lock p = false ->
  thread_inv s0 args order s t p -> thread_inv s0 args order s' t p.
Proof. destruct p; simpl; try discriminate; auto. Qed.

Lemma thread_inv_snoc (order : list nat) (s s' : SequentialThinkingServer)
    (t t' : nat) (p : pc) :
  t' <> t -> holds_lock p = false ->
  thread_inv s0 args order s t' p ->
  thread_inv s0 args (order ++ [t]) s' t' p.
Proof.
  intros Hne Hfree.
  assert (Hnotin : t' ∉ order -> t' ∉ order ++ [t]).
  { intros Hn Hin. apply elem_of_app in Hin as [Hin|Hin]; [auto|].
    apply list_elem_of_singleton in Hin. auto. }
  destruct p as [| | | | | | | input hl snap | [e|o]]; simpl;
    try discriminate.
  - exact Hnotin.
  - intros [Hn Ha]. auto.
  - intros (Ha & k & Hk & Hhl & Hsnap). split; [exact Ha|].
    exists k. pose proof (lookup_lt_Some _ _ _ Hk) as Hlt.
    rewrite lookup_app_l by exact Hlt.
    rewrite take_app_le by lia. auto.
  - intros [Hn Ha]. auto.
  - intros (k & a & Hk & Ha & Hr). exists k, a.
    pose proof (lookup_lt_Some _ _ _ Hk) as Hlt.
    rewrite lookup_app_l by exact Hlt.
    rewrite take_app_le by lia. auto.
Qed.

Lemma lookup_at_pc (l : list pc) (t t' : nat) (p q : pc) :
  <[t := p]> l !! t' = Some q ->
  (t' = t /\ q = p) \/ (t' <> t /\ l !! t' = Some q).
Proof.
  intros Hq. destruct (decide (t = t')) as [<-|Hne].
  - left. split; [reflexivity|].
    assert (Hlt : (t < length l)%nat).
    { apply lookup_lt_Some in Hq. rewrite length_insert in Hq. exact Hq. }
    rewrite list_lookup_insert_eq in Hq by exact Hlt. congruence.
  - right. rewrite list_lookup_insert_ne in Hq by exact Hne. auto.
Qed.

(** How one step of caller [t], from point [p] to point [p'], carries the
    invariant over. *)
Lemma Inv_update (order order' : list nat) (c c' : config) (t : nat)
    (p p' : pc) :
  Inv s0 args order c ->
  pcs c !! t = Some p ->
  pcs c' = <[t := p']> (pcs c) ->
  order_ok args order' ->
  thread_inv s0 args order' (srv c') t p' ->
  (forall (t' : nat) (q : pc),
      t' <> t -> pcs c !! t' = Some q ->
      (holds_lock p = true -> holds_lock q = false) ->
      thread_inv s0 args order (srv c) t' q ->
      thread_inv s0 args order' (srv c') t' q) ->
  (holds_lock p' = true -> holds_lock p = true \/ mu c = false) ->
  (if mu c' then
     holds_lock p' = true \/ (holds_lock p = false /\ mu c = true)
   else
     holds_lock p' = false /\ srv c' = after s0 args order'
     /\ (holds_lock p = true \/ mu c = false)) ->
  Inv s0 args order' c'.
Proof.
  intros [Hnd Hlen Hth Hex Hmu] Hp Hpcs Hnd' Ht Hothers Hexcl Hmu'.
  assert (Hfree : mu c = false ->
                  forall (t1 : nat) (q : pc),
                    pcs c !! t1 = Some q -> holds_lock q = false).
  { intros Hm. rewrite Hm in Hmu. apply Hmu. }
  assert (Hother_free : holds_lock p = true \/ mu c = false ->
            forall (t1 : nat) (q : pc),
              t1 <> t -> pcs c !! t1 = Some q -> holds_lock q = false).
  { intros [Hc|Hm] t1 q Hne Hq.
    - destruct (holds_lock q) eqn:Hl; [|reflexivity].
      exfalso. apply Hne. exact (Hex t1 t q p Hq Hp Hl Hc).
    - exact (Hfree Hm t1 q Hq). }
  split.
  - exact Hnd'.
  - rewrite Hpcs, length_insert. exact Hlen.
  - intros t1 q Hq. rewrite Hpcs in Hq.
    apply lookup_at_pc in Hq as [[-> ->]|[Hne Hq]]; [exact Ht|].
    apply Hothers; auto.
    intros Hc. apply (Hother_free (or_introl Hc) t1 q Hne Hq).
  - intros t1 t2 p1 p2 H1 H2 Hl1 Hl2. rewrite Hpcs in H1, H2.
    apply lookup_at_pc in H1 as [[-> ->]|[Hne1 H1]];
      apply lookup_at_pc in H2 as [[-> ->]|[Hne2 H2]].
    + reflexivity.
    + pose proof (Hother_free (Hexcl Hl1) t2 p2 Hne2 H2). congruence.
    + pose proof (Hother_free (Hexcl Hl2) t1 p1 Hne1 H1). congruence.
    + exact (Hex t1 t2 p1 p2 H1 H2 Hl1 Hl2).
  - destruct (mu c') eqn:Hm'.
    + destruct Hmu' as [Hl|[Hl Hm]].
      * exists t, p'. split; [|exact Hl]. rewrite Hpcs.
        apply list_lookup_insert_eq. eapply lookup_lt_Some, Hp.
      * rewrite Hm in Hmu. destruct Hmu as (t1 & q & Hq & Hlq).
        exists t1, q. split; [|exact Hlq]. rewrite Hpcs.
        rewrite list_lookup_insert_ne; [exact Hq|].
        intros <-. congruence.
    + destruct Hmu' as (Hl & Hsrv & Hc). split; [exact Hsrv|].
      intros t1 q Hq. rewrite Hpcs in Hq.
      apply lookup_at_pc in Hq as [[-> ->]|[Hne Hq]]; [exact Hl|].
      exact (Hother_free Hc t1 q Hne Hq).
Qed.

Lemma Inv_mu_of_holder (order : list nat) (c : config) (t : nat) (p : pc) :
  Inv s0 args order c -> pcs c !! t = Some p -> holds_lock p = true ->
  mu c = true.
Proof.
  intros HI Hp Hl. pose proof (inv_mutex _ _ _ _ HI) as Hmu.
  destruct (mu c); [reflexivity|].
  destruct Hmu as [_ Hfree]. rewrite (Hfree t p Hp) in Hl. discriminate.
Qed.

Lemma Inv_free_srv (order : list nat) (c : config) :
  Inv s0 args order c -> mu c = false -> srv c = after s0 args order.
Proof.
  intros HI Hm. pose proof (inv_mutex _ _ _ _ HI) as Hmu.
  rewrite Hm in Hmu. apply Hmu.
Qed.

Ltac same_others :=
  let H := fresh in intros ? ? _ _ _ H; exact H.

Ltac free_others :=
  let H := fresh in
  let Hf := fresh in
  intros ? ? _ _ Hf H; exact (thread_inv_free _ _ _ _ _ (Hf eq_refl) H).

Lemma Inv_step (order : list nat) (c c' : config) (t : nat) :
  Inv s0 args order c -> step args t c = Some c' ->
  exists order' : list nat, Inv s0 args order' c'.
Proof.
  intros HI Hstep. unfold step in Hstep.
  destruct (args !! t) as [a|] eqn:Ha; [|discriminate].
  destruct (pcs c !! t) as [p|] eqn:Hp; [|discriminate].
  pose proof (inv_threads _ _ _ _ HI t p Hp) as Ht.
  pose proof (inv_order _ _ _ _ HI) as Hnd.
  destruct p as [|input|input|input|input|input hl|input hl snap
                 |input hl snap|r]; simpl in Ht.
  - (* validation *)
    exists order.
    destruct (validateThoughtData a) as [e|] eqn:Hv; injection Hstep as <-.
    + apply (Inv_update order order c _ t _ (Returned (Err e)) HI Hp);
      [reflexivity | exact Hnd | simpl .. ].
      * eauto.
      * same_others.
      * discriminate.
      * destruct (mu c) eqn:Hm; [auto|].
        split; [reflexivity|]. split; [|auto]. apply Inv_free_srv; auto.
    + apply (Inv_update order order c _ t _ (AtLock (normalize a)) HI Hp);
      [reflexivity | exact Hnd | simpl .. ].
      * split; [exact Ht|]. exists a. auto.
      * same_others.
      * discriminate.
      * destruct (mu c) eqn:Hm; [auto|].
        split; [reflexivity|]. split; [|auto]. apply Inv_free_srv; auto.
  - (* Lock *)
    destruct (mu c) eqn:Hm; [discriminate|]. injection Hstep as <-.
    exists order. destruct Ht as [Hn Hin].
    apply (Inv_update order order c _ t _ (AtAppend input) HI Hp);
      [reflexivity | exact Hnd | simpl .. ].
    + split; [exact Hn|]. split; [exact Hin|]. apply Inv_free_srv; auto.
    + same_others.
    + auto.
    + auto.
  - (* append *)
    injection Hstep as <-. exists order. destruct Ht as (Hn & Hin & Hs).
    pose proof (Inv_mu_of_holder order c t _ HI Hp eq_refl) as Hm.
    apply (Inv_update order order c _ t _ (AtRegister input) HI Hp);
      [reflexivity | exact Hnd | simpl .. ].
    + rewrite Hs. auto.
    + free_others.
    + auto.
    + rewrite Hm. auto.
  - (* registration *)
    injection Hstep as <-. exists order. destruct Ht as (Hn & Hin & Hs).
    pose proof (Inv_mu_of_holder order c t _ HI Hp eq_refl) as Hm.
    apply (Inv_update order order c _ t _ (AtLen input) HI Hp);
      [reflexivity | exact Hnd | simpl .. ].
    + rewrite Hs. auto.
    + free_others.
    + auto.
    + rewrite Hm. auto.
  - (* history length *)
    injection Hstep as <-. exists order. destruct Ht as (Hn & Hin & Hs).
    pose proof (Inv_mu_of_holder order c t _ HI Hp eq_refl) as Hm.
    apply (Inv_update order order c _ t _
              (AtSnapshot input (historyLen (srv c))) HI Hp);
      [reflexivity | exact Hnd | simpl .. ].
    + auto.
    + same_others.
    + auto.
    + rewrite Hm. auto.
  - (* snapshot *)
    injection Hstep as <-. exists order.
    destruct Ht as (Hn & Hin & Hs & Hhl).
    pose proof (Inv_mu_of_holder order c t _ HI Hp eq_refl) as Hm.
    apply (Inv_update order order c _ t _
              (AtUnlock input hl (snapshotBranches (srv c))) HI Hp);
      [reflexivity | exact Hnd | simpl .. ].
    + auto 6.
    + same_others.
    + auto.
    + rewrite Hm. auto.
  - (* Unlock *)
    injection Hstep as <-. exists (order ++ [t]).
    destruct Ht as (Hn & Hin & Hs & Hhl & Hsnap).
    assert (Hafter : after s0 args (order ++ [t]) = srv c).
    { destruct Hin as (a' & Ha' & Hv & ->).
      rewrite (after_snoc_valid order t a' Ha' Hv), Hs.
      symmetry. apply accepted_normalize. }
    apply (Inv_update order (order ++ [t]) c _ t _ (AtLog input hl snap)
             HI Hp); [reflexivity | simpl .. ].
    + destruct Hnd as [Hnd Hval]. split.
      * apply NoDup_app. split; [exact Hnd|].
        split; [|apply NoDup_singleton].
        intros x Hx Hx'. apply list_elem_of_singleton in Hx'. subst x. auto.
      * intros x Hx. apply elem_of_app in Hx as [Hx|Hx]; [auto|].
        apply list_elem_of_singleton in Hx. subst x.
        destruct Hin as (a' & Ha' & Hv & _). eauto.
    + split; [exact Hin|]. exists (length order).
      rewrite lookup_app_r, Nat.sub_diag by lia.
      rewrite take_ge by (rewrite length_app; simpl; lia).
      rewrite Hafter. auto.
    + intros t' q Hne Hq Hfree Hq'.
      exact (thread_inv_snoc order (srv c) (srv c) t t' q Hne
               (Hfree eq_refl) Hq').
    + discriminate.
    + auto.
  - (* log and return *)
    injection Hstep as <-. exists order.
    destruct Ht as ((a' & Ha' & Hv & ->) & k & Hk & Hhl & Hsnap).
    eapply (Inv_update order order c _ t);
      [exact HI | exact Hp | reflexivity | exact Hnd | simpl .. ].
    + exists k, a'. split; [exact Hk|]. split; [exact Ha'|].
      destruct (ProcessThought_valid (after s0 args (take k order)) a' Hv)
        as [_ ->].
      destruct (normalize_fields a') as (-> & -> & _ & _ & ->).
      rewrite (take_S_r order k t Hk) in Hhl, Hsnap.
      rewrite (after_snoc_valid _ t a' Ha' Hv) in Hhl, Hsnap.
      rewrite Hhl, Hsnap. reflexivity.
    + same_others.
    + discriminate.
    + destruct (mu c) eqn:Hm; [auto|].
      split; [reflexivity|]. split; [|auto]. apply Inv_free_srv; auto.
  - discriminate.
Qed.

Lemma Inv_exec (sched : list nat) (order : list nat) (c c' : config) :
  Inv s0 args order c -> exec args sched c = Some c' ->
  exists order' : list nat, Inv s0 args order' c'.
Proof.
  revert order c. induction sched as [|t rest IH]; intros order c HI He.
  - injection He as <-. eauto.
  - simpl in He. destruct (step args t c) as [c1|] eqn:Hs; [|discriminate].
    destruct (Inv_step order c c1 t HI Hs) as [order1 HI1].
    exact (IH order1 c1 HI1 He).
Qed.

Lemma Inv_initial : Inv s0 args [] (initial s0 args).
Proof.
  split; simpl.
  - split; [constructor|]. intros t Ht. apply elem_of_nil in Ht.
    contradiction.
  - apply length_replicate.
  - intros t p Hp. apply lookup_replicate in Hp as [-> _]. simpl.
    apply not_elem_of_nil.
  - intros t1 t2 p1 p2 H1 _ Hl. apply lookup_replicate in H1 as [-> _].
    discriminate.
  - split; [reflexivity|]. intros t p Hp.
    apply lookup_replicate in Hp as [-> _]. reflexivity.
Qed.

End Concurrent.

Lemma run_historyLen (inputs : list ThoughtData.t)
    (s : SequentialThinkingServer) :
  Forall valid inputs ->
  historyLen (fst (run s inputs)) = historyLen s + Z.of_nat (length inputs).
Proof.
  revert s. induction inputs as [|a rest IH]; intros s Hall.
  - simpl. lia.
  - inversion Hall as [|? ? Hv Hrest]; subst.
    rewrite run_cons. simpl fst. rewrite (IH _ Hrest).
    destruct (ProcessThought_valid s a Hv) as [-> _].
    rewrite accepted_historyLen. simpl length. lia.
Qed.

Lemma order_ok_take (args : list ThoughtData.t) (order : list nat) (k : nat) :
  order_ok args order -> order_ok args (take k order).
Proof.
  intros [Hnd Hval]. split.
  - rewrite <- (take_drop k order) in Hnd.
    apply NoDup_app in Hnd as [Hnd _]. exact Hnd.
  - intros t Ht. apply Hval. apply elem_of_take in Ht as (i & Hi & _).
    apply list_elem_of_lookup. eauto.
Qed.

Lemma after_historyLen (s0 : SequentialThinkingServer)
    (args : list ThoughtData.t) (order : list nat) :
  order_ok args order ->
  historyLen (after s0 args order)
  = historyLen s0 + Z.of_nat (length order).
Proof.
  intros [_ Hval]. unfold after. rewrite run_historyLen.
  - unfold args_in. rewrite length_map. reflexivity.
  - unfold args_in. apply Forall_forall. intros a Ha.
    apply list_elem_of_fmap in Ha as (t & -> & Ht).
    destruct (Hval t Ht) as (a & Hlook & Hv).
    unfold arg_of. rewrite Hlook. exact Hv.
Qed.

Lemma order_all_callers (args : list ThoughtData.t) (order : list nat) :
  NoDup order ->
  (forall t : nat, t ∈ order <-> (t < length args)%nat) ->
  length order = length args.
Proof.
  intros Hnd Hmem.
  assert (Hperm : order ≡ₚ seq 0 (length args)).
  { apply NoDup_Permutation; [exact Hnd | apply NoDup_seq |].
    intros t. rewrite Hmem, elem_of_seq. lia. }
  rewrite Hperm. apply length_seq.
Qed.

(** What the invariant says once every caller has returned. *)
Lemma Inv_all_returned (s0 : SequentialThinkingServer)
    (args : list ThoughtData.t) (order : list nat) (c : config) :
  Inv s0 args order c -> all_returned c ->
  (NoDup order /\
   forall t : nat,
     t ∈ order <-> exists a : ThoughtData.t, args !! t = Some a /\ valid a) /\
  srv c = after s0 args order /\
  (forall (t : nat) (a : ThoughtData.t),
     args !! t = Some a -> valid a ->
     exists (k : nat) (o : Output.t),
       order !! k = Some t /\ pcs c !! t = Some (Returned (Ok o)) /\
       returned (ProcessThought (after s0 args (take k order)) a) = Ok o) /\
  (forall (t : nat) (a : ThoughtData.t) (e : error),
     args !! t = Some a -> validateThoughtData a = Some e ->
     pcs c !! t = Some (Returned (Err e))).
Proof.
  intros HI Hall.
  pose proof (inv_order _ _ _ _ HI) as [Hnd Hval].
  assert (Hret : forall (t : nat) (a : ThoughtData.t),
             args !! t = Some a ->
             exists r : result,
               pcs c !! t = Some (Returned r)
               /\ thread_inv s0 args order (srv c) t (Returned r)).
  { intros t a Ha.
    destruct (lookup_lt_is_Some_2 (pcs c) t) as [p Hp].
    { rewrite (inv_length _ _ _ _ HI). eapply lookup_lt_Some, Ha. }
    pose proof (inv_threads _ _ _ _ HI t p Hp) as Ht.
    unfold all_returned in Hall. rewrite Forall_lookup in Hall.
    specialize (Hall t p Hp). destruct p; try discriminate. eauto. }
  assert (Hok : forall (t : nat) (a : ThoughtData.t),
             args !! t = Some a -> valid a ->
             exists (k : nat) (o : Output.t),
               order !! k = Some t /\ pcs c !! t = Some (Returned (Ok o)) /\
               returned (ProcessThought (after s0 args (take k order)) a)
               = Ok o).
  { intros t a Ha Hv. destruct (Hret t a Ha) as ([e|o] & Hp & Ht); simpl in Ht.
    - destruct Ht as (_ & a' & Ha' & He). unfold valid in Hv. congruence.
    - destruct Ht as (k & a' & Hk & Ha' & Hr).
      assert (a' = a) as -> by congruence. eauto. }
  split; [split; [exact Hnd|]|split; [|split]].
  - intros t. split; [apply Hval|]. intros (a & Ha & Hv).
    destruct (Hok t a Ha Hv) as (k & o & Hk & _).
    apply list_elem_of_lookup. eauto.
  - pose proof (inv_mutex _ _ _ _ HI) as Hmu. destruct (mu c).
    + destruct Hmu as (t & p & Hp & Hl).
      unfold all_returned in Hall. rewrite Forall_lookup in Hall.
      specialize (Hall t p Hp). destruct p; discriminate.
    + apply Hmu.
  - exact Hok.
  - intros t a e Ha He. destruct (Hret t a Ha) as ([e'|o] & Hp & Ht);
      simpl in Ht.
    + destruct Ht as (_ & a' & Ha' & He'). rewrite Hp. congruence.
    + destruct Ht as (k & a' & Hk & Ha' & Hr).
      assert (a' = a) as -> by congruence.
      rewrite (ProcessThought_invalid _ a e He) in Hr. discriminate.
Qed.

(** ** C7: the locked section is atomic *)

(** C7.  Let any number of callers run [ProcessThought] concurrently on a
    fresh server, their steps interleaved in any order that the mutex
    allows, until all have returned.  Then the callers that passed the
    validation can be put in one order (that of their locked sections)
    such that the server is the one that these calls leave when issued one
    after the other, and every caller got what its call returns when run
    alone on the server left by the callers before it: its branch list
    and its history length are both read from the server as it stands at
    the end of its own mutation, and its history length is its place in
    the order.  The final history length is the number of accepted calls:
    [N] for [N] valid ones. *)
Theorem concurrent_calls_atomic (b : bool) (args : list ThoughtData.t)
    (sched : list nat) (c : config) :
  exec args sched (initial (NewSequentialThinkingServer b) args) = Some c ->
  all_returned c ->
  exists order : list nat,
    (NoDup order /\
     forall t : nat,
       t ∈ order <-> exists a : ThoughtData.t, args !! t = Some a /\ valid a)
    /\ srv c = fst (run (NewSequentialThinkingServer b) (args_in args order))
    /\ historyLen (srv c) = Z.of_nat (length order)
    /\ (Forall valid args -> historyLen (srv c) = Z.of_nat (length args))
    /\ (forall (t : nat) (a : ThoughtData.t),
          args !! t = Some a -> valid a ->
          exists (k : nat) (o : Output.t),
            order !! k = Some t /\ pcs c !! t = Some (Returned (Ok o)) /\
            let before :=
              fst (run (NewSequentialThinkingServer b)
                     (args_in args (take k order))) in
            returned (ProcessThought before a) = Ok o /\
            Output.Branches o
              = snapshotBranches (server_after (ProcessThought before a)) /\
            Output.ThoughtHistoryLength o
              = historyLen (server_after (ProcessThought before a)) /\
            Output.ThoughtHistoryLength o = Z.of_nat (S k)).
Proof.
  intros Hexec Hall.
  destruct (Inv_exec _ args sched [] _ c (Inv_initial _ args) Hexec)
    as [order HI].
  pose proof (inv_order _ _ _ _ HI) as Hord.
  destruct (Inv_all_returned _ args order c HI Hall)
    as ([Hnd Hmem] & Hsrv & Hok & _).
  assert (Hlen : historyLen (srv c) = Z.of_nat (length order)).
  { rewrite Hsrv, (after_historyLen _ args order Hord). reflexivity. }
  exists order. split; [split; assumption|]. split; [exact Hsrv|].
  split; [exact Hlen|]. split.
  - intros Hvalid. rewrite Hlen. f_equal.
    apply order_all_callers; [exact Hnd|].
    intros t. rewrite Hmem. split.
    + intros (a & Ha & _). eapply lookup_lt_Some, Ha.
    + intros Hlt. destruct (lookup_lt_is_Some_2 args t Hlt) as [a Ha].
      exists a. split; [exact Ha|].
      rewrite Forall_lookup in Hvalid. exact (Hvalid t a Ha).
  - intros t a Ha Hv. destruct (Hok t a Ha Hv) as (k & o & Hk & Hp & Hr).
    exists k, o. split; [exact Hk|]. split; [exact Hp|].
    cbv zeta. fold (after (NewSequentialThinkingServer b) args (take k order)).
    split; [exact Hr|].
    destruct (ProcessThought_Ok _ a o Hr) as (_ & Hb & Hh).
    split; [exact Hb|]. split; [exact Hh|].
    rewrite Hh. destruct (ProcessThought_valid
                            (after (NewSequentialThinkingServer b) args
                               (take k order)) a Hv) as [-> _].
    rewrite accepted_historyLen.
    rewrite (after_historyLen _ args (take k order)
               (order_ok_take args order k Hord)).
    rewrite length_take. apply lookup_lt_Some in Hk.
    change (historyLen (NewSequentialThinkingServer b)) with 0. lia.
Qed.

Lemma concurrent_calls_atomic_witness :
  exists order : list nat,
    (NoDup order /\
     forall t : nat,
       t ∈ order <->
       exists a : ThoughtData.t, two_callers !! t = Some a /\ valid a)
    /\ srv two_callers_end
       = fst (run (NewSequentialThinkingServer false)
                (args_in two_callers order))
    /\ historyLen (srv two_callers_end) = Z.of_nat (length order)
    /\ (Forall valid two_callers ->
        historyLen (srv two_callers_end) = Z.of_nat (length two_callers))
    /\ (forall (t : nat) (a : ThoughtData.t),
          two_callers !! t = Some a -> valid a ->
          exists (k : nat) (o : Output.t),
            order !! k = Some t
            /\ pcs two_callers_end !! t = Some (Returned (Ok o)) /\
            let before :=
              fst (run (NewSequentialThinkingServer false)
                     (args_in two_callers (take k order))) in
            returned (ProcessThought before a) = Ok o /\
            Output.Branches o
              = snapshotBranches (server_after (ProcessThought before a)) /\
            Output.ThoughtHistoryLength o
              = historyLen (server_after (ProcessThought before a)) /\
            Output.ThoughtHistoryLength o = Z.of_nat (S k)).
Proof.
  apply (concurrent_calls_atomic false two_callers two_callers_sched
           two_callers_end).
  - vm_compute. reflexivity.
  - unfold all_returned. vm_compute. repeat constructor.
Defined.

(** ** A caller alone, progress and termination *)

(** A caller that runs alone does what [ProcessThought] does. *)
Lemma single_caller_is_ProcessThought (s : SequentialThinkingServer)
    (a : ThoughtData.t) :
  exists sched : list nat,
    exec [a] sched (initial s [a]) =
      Some {| srv := server_after (ProcessThought s a);
              mu := false;
              diag := stderr (ProcessThought s a);
              pcs := [Returned (returned (ProcessThought s a))] |}.
Proof.
  destruct (validateThoughtData a) as [e|] eqn:Hv.
  - exists [0%nat]. simpl. unfold step. simpl. rewrite Hv.
    rewrite (ProcessThought_invalid s a e Hv). reflexivity.
  - exists (replicate 8 0%nat). unfold ProcessThought. rewrite Hv.
    simpl. unfold step. simpl. rewrite Hv. reflexivity.
Qed.

(** No deadlock: while some caller has not returned, some caller can
    move. *)
Lemma Inv_progress (s0 : SequentialThinkingServer)
    (args : list ThoughtData.t) (order : list nat) (c : config) :
  Inv s0 args order c -> ~ all_returned c ->
  exists (t : nat) (c' : config), step args t c = Some c'.
Proof.
  intros HI Hnot.
  assert (Hargs : forall (t : nat) (p : pc),
             pcs c !! t = Some p -> exists a, args !! t = Some a).
  { intros t p Hp. apply lookup_lt_is_Some_2.
    rewrite <- (inv_length _ _ _ _ HI). eapply lookup_lt_Some, Hp. }
  pose proof (inv_mutex _ _ _ _ HI) as Hmu.
  destruct (mu c) eqn:Hm.
  - destruct Hmu as (t & p & Hp & Hl). destruct (Hargs t p Hp) as [a Ha].
    exists t. unfold step. rewrite Ha, Hp.
    destruct p; try discriminate; eauto.
  - unfold all_returned in Hnot. apply not_Forall_Exists in Hnot; [|apply _].
    apply Exists_exists in Hnot as (p & Hin & Hp).
    apply list_elem_of_lookup in Hin as [t Ht].
    destruct (Hargs t p Ht) as [a Ha].
    exists t. unfold step. rewrite Ha, Ht, Hm.
    destruct p; eauto.
    + destruct (validateThoughtData a); eauto.
    + simpl in Hp. congruence.
Qed.

Lemma work_insert (l : list pc) (t : nat) (p p' : pc) :
  l !! t = Some p ->
  (sum_list (remaining <$> <[t := p']> l) + remaining p
   = sum_list (remaining <$> l) + remaining p')%nat.
Proof.
  revert t. induction l as [|q l IH]; intros t Hp; [discriminate|].
  destruct t as [|t]; simpl in *.
  - injection Hp as ->. lia.
  - specialize (IH t Hp). change (list_fmap pc nat remaining) with
      (fmap (M := list) remaining). lia.
Qed.

Lemma step_work (args : list ThoughtData.t) (t : nat) (c c' : config) :
  step args t c = Some c' -> (work c' < work c)%nat.
Proof.
  unfold step, work. intros Hstep.
  destruct (args !! t) as [a|]; [|discriminate].
  destruct (pcs c !! t) as [p|] eqn:Hp; [|discriminate].
  destruct p; try discriminate;
    try (destruct (validateThoughtData a));
    try (destruct (mu c); [discriminate|]);
    injection Hstep as <-;
    cbn [pcs at_pc with_srv with_mu with_diag];
    match goal with
    | |- context [<[t := ?p']> (pcs c)] =>
        pose proof (work_insert (pcs c) t _ p' Hp) as Hw
    end; cbn [remaining] in Hw; lia.
Qed.

(** Every execution can be carried on until all callers have returned. *)
Lemma Inv_completes (s0 : SequentialThinkingServer)
    (args : list ThoughtData.t) (n : nat) (order : list nat) (c : config) :
  Inv s0 args order c -> (work c <= n)%nat ->
  exists (sched : list nat) (c' : config),
    exec args sched c = Some c' /\ all_returned c'.
Proof.
  revert order c. induction n as [|n IH]; intros order c HI Hn.
  - destruct (decide (Forall (fun p => is_returned p = true) (pcs c)))
      as [Hall|Hnot].
    + exists [], c. split; [reflexivity | exact Hall].
    + destruct (Inv_progress s0 args order c HI Hnot) as (t & c' & Hs).
      apply step_work in Hs. lia.
  - destruct (decide (Forall (fun p => is_returned p = true) (pcs c)))
      as [Hall|Hnot].
    + exists [], c. split; [reflexivity | exact Hall].
    + destruct (Inv_progress s0 args order c HI Hnot) as (t & c' & Hs).
      destruct (Inv_step s0 args order c c' t HI Hs) as [order' HI'].
      pose proof (step_work args t c c' Hs) as Hw.
      destruct (IH order' c' HI' ltac:(lia)) as (sched & c'' & He & Hall).
      exists (t :: sched), c''. split; [|exact Hall].
      simpl. rewrite Hs. exact He.
Qed.

(** Concurrent calls do return: from the entry of [ProcessThought], any
    number of callers can all run to their return. *)
Lemma concurrent_calls_return (s0 : SequentialThinkingServer)
    (args : list ThoughtData.t) :
  exists (sched : list nat) (c : config),
    exec args sched (initial s0 args) = Some c /\ all_returned c.
Proof.
  exact (Inv_completes s0 args _ [] _ (Inv_initial s0 args) (le_n _)).
Qed.

(** * Further properties of the code *)

(** ** The sorted insertion (lines 184-191) *)

Lemma lex_lt_asym (x y : string) : lex_lt x y -> lex_lt y x -> False.
Proof. intros [Hxy Hnyx] [Hyx _]. exact (Hnyx Hyx). Qed.

(** Two strictly ascending lists with the same members are the same
    list. *)
Lemma sortedKeys_unique (l1 l2 : list string) :
  sortedKeys l1 -> sortedKeys l2 ->
  (forall x : string, x ∈ l1 <-> x ∈ l2) -> l1 = l2.
Proof.
  intros H1 H2 Hmem.
  apply (StronglySorted_unique_strong lex_lt); auto.
  - intros x1 x2 _ _ Ha Hb. destruct (lex_lt_asym x1 x2 Ha Hb).
  - apply NoDup_Permutation; auto using sortedKeys_NoDup.
Qed.

(** X1.  Inserting an identifier that is not among strictly ascending
    keys puts it at the index the search returns and moves nothing else:
    the result is strictly ascending, one longer, a permutation of the
    identifier and the old keys, with the keys before the index and those
    from it on kept in their order. *)
Theorem insertBranchKey_fresh (keys : list string) (x : string) :
  sortedKeys keys -> x ∉ keys ->
  let i := sort_SearchStrings keys x in
  insertBranchKey keys x = take i keys ++ x :: drop i keys /\
  insertBranchKey keys x !! i = Some x /\
  sortedKeys (insertBranchKey keys x) /\
  insertBranchKey keys x ≡ₚ x :: keys /\
  length (insertBranchKey keys x) = S (length keys).
Proof.
  intros Hs Hx i.
  assert (Heq : insertBranchKey keys x = take i keys ++ x :: drop i keys).
  { rewrite insertBranchKey_eq. cbv zeta. fold i.
    rewrite bool_decide_eq_false_2; [reflexivity|].
    intros Hi. apply Hx, list_elem_of_lookup. eauto. }
  pose proof (SearchStrings_le keys x) as Hle. fold i in Hle.
  split; [exact Heq|]. split; [|split; [|split]].
  - rewrite Heq, lookup_app_r by (rewrite length_take; lia).
    rewrite length_take. replace (i - i `min` length keys)%nat with 0%nat by lia.
    reflexivity.
  - apply insertBranchKey_sorted, Hs.
  - rewrite Heq, <- Permutation_middle, take_drop. reflexivity.
  - rewrite Heq, length_app, length_take. simpl. rewrite length_drop. lia.
Qed.

Lemma insertBranchKey_fresh_witness :
  let i := sort_SearchStrings ["a"; "c"] "b" in
  insertBranchKey ["a"; "c"] "b" = take i ["a"; "c"] ++ "b" :: drop i ["a"; "c"]
  /\ insertBranchKey ["a"; "c"] "b" !! i = Some "b"
  /\ sortedKeys (insertBranchKey ["a"; "c"] "b")
  /\ insertBranchKey ["a"; "c"] "b" ≡ₚ "b" :: ["a"; "c"]
  /\ length (insertBranchKey ["a"; "c"] "b") = S (length ["a"; "c"]).
Proof.
  apply (insertBranchKey_fresh ["a"; "c"] "b").
  - repeat constructor; vm_compute; intuition discriminate.
  - intros Hin. apply elem_of_cons in Hin as [Hin|Hin]; [discriminate|].
    apply list_elem_of_singleton in Hin. discriminate.
Defined.

(** X2.  On strictly ascending keys that already hold the identifier the
    search returns its index, and the insertion leaves the keys as they
    are: the comparison of line 187 guards against a duplicate even when
    the map did not. *)
Theorem insertBranchKey_present (keys : list string) (x : string) :
  sortedKeys keys -> x ∈ keys ->
  keys !! sort_SearchStrings keys x = Some x /\
  insertBranchKey keys x = keys.
Proof.
  intros Hs Hx.
  assert (Hi : keys !! sort_SearchStrings keys x = Some x).
  { set (i := sort_SearchStrings keys x).
    apply list_elem_of_lookup in Hx as [j Hj].
    pose proof (SearchStrings_below keys x Hs) as Hlo.
    pose proof (SearchStrings_above keys x Hs) as Hhi.
    fold i in Hlo, Hhi.
    rewrite Forall_lookup in Hlo. rewrite Forall_lookup in Hhi.
    assert (Hij : (i <= j)%nat).
    { destruct (Nat.le_gt_cases i j) as [|Hlt]; [assumption|].
      exfalso. apply (irreflexivity lex_lt x).
      apply (Hlo j x). apply lookup_take_Some. auto. }
    destruct (decide (i = j)) as [->|Hne]; [exact Hj|].
    exfalso.
    destruct (lookup_lt_is_Some_2 keys i) as [k Hk].
    { apply lookup_lt_Some in Hj. lia. }
    assert (Hkx : lex_lt k x)
      by (apply (sorted_lookup_lt keys i j k x); auto; lia).
    apply Hkx. apply (Hhi 0%nat k).
    rewrite lookup_drop, Nat.add_0_r. exact Hk. }
  split; [exact Hi|].
  rewrite insertBranchKey_eq. cbv zeta.
  rewrite bool_decide_eq_true_2; [reflexivity | exact Hi].
Qed.

Lemma insertBranchKey_present_witness :
  ["a"; "b"; "c"] !! sort_SearchStrings ["a"; "b"; "c"] "b" = Some "b" /\
  insertBranchKey ["a"; "b"; "c"] "b" = ["a"; "b"; "c"].
Proof.
  apply (insertBranchKey_present ["a"; "b"; "c"] "b").
  - repeat constructor; vm_compute; intuition discriminate.
  - apply list_elem_of_further, list_elem_of_here.
Defined.

(** ** What a run leaves on the server *)

Lemma registerBranch_flag (s : SequentialThinkingServer)
    (input : ThoughtData.t) :
  enableThoughtLogging (registerBranch s input) = enableThoughtLogging s.
Proof.
  unfold registerBranch. destruct (branchTrigger input); [|reflexivity].
  case_bool_decide; reflexivity.
Qed.

Lemma ProcessThought_flag (s : SequentialThinkingServer)
    (input : ThoughtData.t) :
  enableThoughtLogging (server_after (ProcessThought s input))
  = enableThoughtLogging s.
Proof.
  destruct (validateThoughtData input) as [e|] eqn:Hv.
  - rewrite (ProcessThought_invalid s input e Hv). reflexivity.
  - destruct (ProcessThought_valid s input Hv) as [-> _].
    unfold accepted. rewrite registerBranch_flag. reflexivity.
Qed.

Lemma run_flag (inputs : list ThoughtData.t) (s : SequentialThinkingServer) :
  enableThoughtLogging (fst (run s inputs)) = enableThoughtLogging s.
Proof.
  revert s. induction inputs as [|input rest IH]; intros s; [reflexivity|].
  rewrite run_cons. simpl. rewrite IH. apply ProcessThought_flag.
Qed.

Lemma run_drops_rejected (inputs : list ThoughtData.t)
    (s : SequentialThinkingServer) :
  fst (run s inputs) = fst (run s (filter valid inputs)).
Proof.
  revert s. induction inputs as [|input rest IH]; intros s; [reflexivity|].
  rewrite run_cons. simpl fst. destruct (decide (valid input)) as [Hv|Hn].
  - rewrite filter_cons_True by exact Hv. rewrite run_cons. simpl fst.
    apply IH.
  - rewrite filter_cons_False by exact Hn.
    destruct (validateThoughtData input) as [e|] eqn:He;
      [|contradiction].
    rewrite (ProcessThought_invalid s input e He). simpl. apply IH.
Qed.

Lemma filter_valid_Forall (inputs : list ThoughtData.t) :
  Forall valid (filter valid inputs).
Proof.
  apply Forall_forall. intros x Hx. apply list_elem_of_filter in Hx. tauto.
Qed.

Lemma unit_list_eq (l1 l2 : list unit) : length l1 = length l2 -> l1 = l2.
Proof.
  revert l2. induction l1 as [|[] l1 IH]; intros [|[] l2] Hlen;
    try discriminate; [reflexivity|].
  f_equal. apply IH. simpl in Hlen. lia.
Qed.

(** A consistent server is determined by its history length, its branch
    set and its flag. *)
Lemma consistent_server_eq (s1 s2 : SequentialThinkingServer) :
  consistent s1 -> consistent s2 ->
  historyLen s1 = historyLen s2 -> branches s1 = branches s2 ->
  enableThoughtLogging s1 = enableThoughtLogging s2 -> s1 = s2.
Proof.
  intros [Hs1 Hk1] [Hs2 Hk2] Hh Hb Hf.
  assert (Hkeys : branchKeys s1 = branchKeys s2).
  { apply sortedKeys_unique; auto. intros x. rewrite Hk1, Hk2, Hb. tauto. }
  assert (Hhist : thoughtHistory s1 = thoughtHistory s2).
  { apply unit_list_eq. unfold historyLen in Hh. lia. }
  destruct s1, s2; simpl in *. congruence.
Qed.

Lemma registered_Permutation (l1 l2 : list ThoughtData.t) :
  l1 ≡ₚ l2 -> registered l1 = registered l2.
Proof.
  induction 1 as [|x l l' _ IH|x y l|l l' l'' _ IH1 _ IH2]; simpl.
  - reflexivity.
  - rewrite IH. reflexivity.
  - unions.
  - congruence.
Qed.

(** X3.  The server that a sequence of calls leaves behind does not depend
    on the order of the calls: history, branch set, key list and flag are
    the same for every permutation of the inputs. *)
Theorem call_order_irrelevant (b : bool) (l1 l2 : list ThoughtData.t) :
  l1 ≡ₚ l2 ->
  fst (run (NewSequentialThinkingServer b) l1)
  = fst (run (NewSequentialThinkingServer b) l2).
Proof.
  intros Hperm. apply consistent_server_eq.
  - apply run_consistent, consistent_new.
  - apply run_consistent, consistent_new.
  - rewrite (run_drops_rejected l1), (run_drops_rejected l2).
    rewrite !run_historyLen by apply filter_valid_Forall.
    rewrite Hperm. reflexivity.
  - rewrite !run_branches, (registered_Permutation l1 l2 Hperm). reflexivity.
  - rewrite !run_flag. reflexivity.
Qed.

Lemma call_order_irrelevant_witness :
  fst (run (NewSequentialThinkingServer false)
         [thought "first" true 2 1 (-1) "b";
          thought "second" false 3 3 (-2) "a"])
  = fst (run (NewSequentialThinkingServer false)
           [thought "second" false 3 3 (-2) "a";
            thought "first" true 2 1 (-1) "b"]).
Proof.
  apply (call_order_irrelevant false). apply perm_swap.
Defined.

Lemma accepted_knows (s : SequentialThinkingServer) (input : ThoughtData.t) :
  branchTrigger input = true ->
  ThoughtData.BranchId input ∈ branches (accepted s input).
Proof.
  intros Ht. unfold accepted. rewrite registerBranch_branches, Ht.
  apply elem_of_union. left. apply elem_of_singleton. reflexivity.
Qed.

Lemma accepted_again (s : SequentialThinkingServer) (input : ThoughtData.t) :
  accepted (accepted s input) input = appendHistory (accepted s input).
Proof.
  destruct (branchTrigger input) eqn:Ht.
  - unfold accepted at 1. unfold registerBranch. rewrite Ht.
    rewrite bool_decide_eq_true_2; [reflexivity|].
    simpl. apply accepted_knows, Ht.
  - apply accepted_trigger_false, Ht.
Qed.

(** X4.  Sending the same valid record a second time changes nothing but
    the history: branch set and key list stay as the first call left
    them, from any server state, and the second answer differs from the
    first in its history length only, which is one more. *)
Theorem repeated_call_only_counts (s : SequentialThinkingServer)
    (input : ThoughtData.t) :
  valid input ->
  let c1 := ProcessThought s input in
  let c2 := ProcessThought (server_after c1) input in
  branches (server_after c2) = branches (server_after c1) /\
  branchKeys (server_after c2) = branchKeys (server_after c1) /\
  exists o1 o2 : Output.t,
    returned c1 = Ok o1 /\ returned c2 = Ok o2 /\
    Output.Branches o2 = Output.Branches o1 /\
    Output.ThoughtNumber o2 = Output.ThoughtNumber o1 /\
    Output.TotalThoughts o2 = Output.TotalThoughts o1 /\
    Output.NextThoughtNeeded o2 = Output.NextThoughtNeeded o1 /\
    Output.ThoughtHistoryLength o2 = Output.ThoughtHistoryLength o1 + 1.
Proof.
  intros Hv c1 c2. subst c1 c2.
  destruct (ProcessThought_valid s input Hv) as [Hs1 Ho1].
  destruct (ProcessThought_valid (accepted s input) input Hv) as [Hs2 Ho2].
  rewrite Hs1, Hs2, Ho1, Ho2, accepted_again.
  split; [reflexivity|]. split; [reflexivity|].
  eexists _, _. split; [reflexivity|]. split; [reflexivity|]. simpl.
  repeat split. unfold historyLen. simpl. rewrite length_app. simpl. lia.
Qed.

Lemma repeated_call_only_counts_witness :
  let input := thought "first" true 2 1 (-1) "b" in
  let c1 := ProcessThought (NewSequentialThinkingServer false) input in
  let c2 := ProcessThought (server_after c1) input in
  branches (server_after c2) = branches (server_after c1) /\
  branchKeys (server_after c2) = branchKeys (server_after c1) /\
  exists o1 o2 : Output.t,
    returned c1 = Ok o1 /\ returned c2 = Ok o2 /\
    Output.Branches o2 = Output.Branches o1 /\
    Output.ThoughtNumber o2 = Output.ThoughtNumber o1 /\
    Output.TotalThoughts o2 = Output.TotalThoughts o1 /\
    Output.NextThoughtNeeded o2 = Output.NextThoughtNeeded o1 /\
    Output.ThoughtHistoryLength o2 = Output.ThoughtHistoryLength o1 + 1.
Proof.
  apply (repeated_call_only_counts (NewSequentialThinkingServer false)
           (thought "first" true 2 1 (-1) "b")).
  reflexivity.
Defined.

Lemma run_rejected_outputs (inputs : list ThoughtData.t)
    (s : SequentialThinkingServer) (k : nat) (input : ThoughtData.t)
    (e : error) :
  inputs !! k = Some input -> validateThoughtData input = Some e ->
  snd (run s inputs) !! k = Some (Err e).
Proof.
  revert s k. induction inputs as [|i0 rest IH]; intros s k Hk He;
    [discriminate|].
  rewrite run_cons. simpl. destruct k as [|k]; simpl in *.
  - injection Hk as ->. rewrite (ProcessThought_invalid s input e He).
    reflexivity.
  - apply IH; assumption.
Qed.

(** X5.  Rejected calls leave no trace.  The server after a run is the
    server after the accepted inputs of the run alone; its history length
    has grown by the number of accepted inputs; and the answer to each
    rejected input is its validation error. *)
Theorem rejected_calls_leave_no_trace (s : SequentialThinkingServer)
    (inputs : list ThoughtData.t) :
  fst (run s inputs) = fst (run s (filter valid inputs)) /\
  historyLen (fst (run s inputs))
  = historyLen s + Z.of_nat (length (filter valid inputs)) /\
  (forall (k : nat) (input : ThoughtData.t) (e : error),
      inputs !! k = Some input -> validateThoughtData input = Some e ->
      snd (run s inputs) !! k = Some (Err e)).
Proof.
  split; [apply run_drops_rejected|]. split.
  - rewrite run_drops_rejected. apply run_historyLen, filter_valid_Forall.
  - intros k input e. apply run_rejected_outputs.
Qed.

Lemma insertBranchKey_length (keys : list string) (x : string) :
  (length (insertBranchKey keys x) <= S (length keys))%nat.
Proof.
  rewrite insertBranchKey_eq. cbv zeta. case_bool_decide; [lia|].
  rewrite length_app, length_take. simpl. rewrite length_drop. lia.
Qed.

Lemma ProcessThought_keys_history (s : SequentialThinkingServer)
    (input : ThoughtData.t) :
  (length (branchKeys s) <= length (thoughtHistory s))%nat ->
  (length (branchKeys (server_after (ProcessThought s input)))
   <= length (thoughtHistory (server_after (ProcessThought s input))))%nat.
Proof.
  intros Hle. destruct (validateThoughtData input) as [e|] eqn:Hv.
  - rewrite (ProcessThought_invalid s input e Hv). exact Hle.
  - destruct (ProcessThought_valid s input Hv) as [-> _].
    unfold accepted. rewrite registerBranch_history. simpl.
    rewrite length_app. simpl.
    unfold registerBranch. destruct (branchTrigger input); simpl; [|lia].
    case_bool_decide; simpl; [lia|].
    pose proof (insertBranchKey_length (branchKeys s)
                  (ThoughtData.BranchId input)). lia.
Qed.

(** X6.  A server never knows more branches than it has counted
    thoughts: after any run from a fresh server the key list is at most
    as long as the history, and so is the branch list of every answer
    compared with its history length. *)
Theorem branches_at_most_history (b : bool) (inputs : list ThoughtData.t) :
  let s := fst (run (NewSequentialThinkingServer b) inputs) in
  Z.of_nat (length (branchKeys s)) <= historyLen s /\
  forall (o : Output.t) (l : list string),
    Ok o ∈ snd (run (NewSequentialThinkingServer b) inputs) ->
    Output.Branches o = Some l ->
    Z.of_nat (length l) <= Output.ThoughtHistoryLength o.
Proof.
  assert (Hrun : forall (l : list ThoughtData.t)
                        (s : SequentialThinkingServer),
             (length (branchKeys s) <= length (thoughtHistory s))%nat ->
             (length (branchKeys (fst (run s l)))
              <= length (thoughtHistory (fst (run s l))))%nat /\
             forall (o : Output.t) (ks : list string),
               Ok o ∈ snd (run s l) -> Output.Branches o = Some ks ->
               Z.of_nat (length ks) <= Output.ThoughtHistoryLength o).
  { induction l as [|input rest IH]; intros s Hle.
    - split; [exact Hle|]. intros o ks Hin. apply elem_of_nil in Hin.
      contradiction.
    - rewrite run_cons. simpl.
      pose proof (ProcessThought_keys_history s input Hle) as Hle'.
      destruct (IH _ Hle') as [Hfin Houts]. split; [exact Hfin|].
      intros o ks Hin Hks. apply elem_of_cons in Hin as [Ho|Hin].
      + symmetry in Ho. apply ProcessThought_Ok in Ho as (_ & Hb & Hh).
        rewrite Hb in Hks. apply snapshotBranches_Some in Hks as [-> _].
        rewrite Hh. unfold historyLen. lia.
      + exact (Houts o ks Hin Hks). }
  intros s. subst s.
  destruct (Hrun inputs (NewSequentialThinkingServer b) (le_n 0))
    as [Hfin Houts].
  split; [unfold historyLen; lia | exact Houts].
Qed.

(** X7.  The map and the slice of a server agree: after any run from a
    fresh server the branch set has exactly the members of the key list,
    as many as the list is long, and the key list is the ascending
    listing of the set. *)
Theorem map_and_slice_agree (b : bool) (inputs : list ThoughtData.t) :
  let s := fst (run (NewSequentialThinkingServer b) inputs) in
  (forall x : string, x ∈ branches s <-> x ∈ branchKeys s) /\
  size (branches s) = length (branchKeys s) /\
  elements (branches s) ≡ₚ branchKeys s /\
  branches s = list_to_set (branchKeys s) /\
  branches s = registered inputs /\
  forall l : list string,
    sortedKeys l -> (forall x : string, x ∈ l <-> x ∈ branches s) ->
    l = branchKeys s.
Proof.
  intros s.
  assert (Hc : consistent s) by apply run_consistent, consistent_new.
  destruct Hc as [Hs Hk].
  assert (Hperm : elements (branches s) ≡ₚ branchKeys s).
  { apply NoDup_Permutation.
    - apply NoDup_elements.
    - apply sortedKeys_NoDup, Hs.
    - intros x. rewrite elem_of_elements, Hk. tauto. }
  split; [intros x; rewrite Hk; tauto|]. split; [|split; [|split; [|split]]].
  - unfold size, set_size. simpl. rewrite Hperm. reflexivity.
  - exact Hperm.
  - apply set_eq. intros x. rewrite elem_of_list_to_set, Hk. tauto.
  - subst s. rewrite run_branches. simpl. unions.
  - intros l Hl Hmem. apply sortedKeys_unique; auto.
    intros x. rewrite Hmem, Hk. tauto.
Qed.

(** X8.  Every answer is well formed, whatever the server: the step
    number is at least 1 and at most the total, the total is the larger
    of the input's number and estimate, the history length is at least 1,
    and the branch list is absent or non-empty, never an empty list. *)
Theorem answer_well_formed (s : SequentialThinkingServer)
    (input : ThoughtData.t) (o : Output.t) :
  returned (ProcessThought s input) = Ok o ->
  1 <= Output.ThoughtNumber o /\
  Output.ThoughtNumber o <= Output.TotalThoughts o /\
  Output.TotalThoughts o
  = Z.max (ThoughtData.ThoughtNumber input) (ThoughtData.TotalThoughts input)
  /\ 1 <= Output.ThoughtHistoryLength o /\
  Output.Branches o <> Some [].
Proof.
  intros Hr. destruct (ProcessThought_Ok s input o Hr) as (Hv & Hb & Hh).
  destruct (ProcessThought_valid s input Hv) as [Hs Ho].
  rewrite Ho in Hr. injection Hr as <-. simpl.
  apply valid_iff in Hv as (_ & Hn & Ht).
  repeat split; try lia.
  - rewrite accepted_historyLen. unfold historyLen. lia.
  - intros Habs. apply snapshotBranches_Some in Habs as [_ Hne].
    exact (Hne eq_refl).
Qed.

Lemma answer_well_formed_witness :
  let o := Output.mk 2 2 true (Some ["b"]) 1 in
  1 <= Output.ThoughtNumber o /\
  Output.ThoughtNumber o <= Output.TotalThoughts o /\
  Output.TotalThoughts o = Z.max 2 1 /\
  1 <= Output.ThoughtHistoryLength o /\
  Output.Branches o <> Some [].
Proof.
  apply (answer_well_formed (NewSequentialThinkingServer false)
           (thought "first" true 2 1 (-1) "b")).
  vm_compute. reflexivity.
Defined.

(** ** Logging *)

Lemma accepted_with_logging (s : SequentialThinkingServer)
    (input : ThoughtData.t) (b : bool) :
  accepted (with_logging s b) input = with_logging (accepted s input) b.
Proof.
  unfold accepted, registerBranch. destruct (branchTrigger input);
    [|reflexivity].
  simpl. case_bool_decide; reflexivity.
Qed.

(** X9.  Logging only observes.  Whatever the flag, a call returns the
    same answer and leaves the same history, branch set and key list; the
    flag itself is never changed; and the call writes one line, the frame
    of the normalised input, exactly when the flag is set and the input
    is accepted, and nothing otherwise. *)
Theorem logging_only_observes (s : SequentialThinkingServer)
    (input : ThoughtData.t) (b : bool) :
  let c := ProcessThought s input in
  let c' := ProcessThought (with_logging s b) input in
  returned c' = returned c /\
  server_after c' = with_logging (server_after c) b /\
  enableThoughtLogging (server_after c) = enableThoughtLogging s /\
  stderr c' =
    (if b then
       match validateThoughtData input with
       | None => [logged_line input]
       | Some _ => []
       end
     else []).
Proof.
  intros c c'. subst c c'.
  split; [|split; [|split]]; try apply ProcessThought_flag.
  - destruct (validateThoughtData input) as [e|] eqn:Hv.
    + rewrite !(ProcessThought_invalid _ input e Hv). reflexivity.
    + destruct (ProcessThought_valid s input Hv) as [_ ->].
      destruct (ProcessThought_valid (with_logging s b) input Hv) as [_ ->].
      rewrite accepted_with_logging. reflexivity.
  - destruct (validateThoughtData input) as [e|] eqn:Hv.
    + rewrite !(ProcessThought_invalid _ input e Hv). reflexivity.
    + destruct (ProcessThought_valid s input Hv) as [-> _].
      destruct (ProcessThought_valid (with_logging s b) input Hv) as [-> _].
      apply accepted_with_logging.
  - unfold ProcessThought, locked.
    destruct (validateThoughtData input) as [e|] eqn:Hv; simpl.
    + destruct b; reflexivity.
    + rewrite registerBranch_flag. simpl. destruct b; reflexivity.
Qed.

(** ** The frame of formatThought *)

Lemma append_cons (c : ascii) (s t : string) :
  String c s +:+ t = String c (s +:+ t).
Proof. reflexivity. Qed.

Lemma length_append (s t : string) :
  String.length (s +:+ t) = (String.length s + String.length t)%nat.
Proof.
  induction s as [|c s IH]; [reflexivity|].
  rewrite append_cons. simpl. rewrite IH. reflexivity.
Qed.

Lemma len_append (s t : string) : len (s +:+ t) = len s + len t.
Proof. unfold len. rewrite length_append. lia. Qed.

Lemma len_Repeat_space (n : nat) : len (Repeat " " n) = Z.of_nat n.
Proof.
  induction n as [|n IH]; [reflexivity|].
  change (Repeat " " (S n)) with (" " +:+ Repeat " " n).
  rewrite len_append, IH. unfold len. simpl String.length. lia.
Qed.

(** X10.  [formatThought] never asks [strings.Repeat] for a negative
    count: both rows get at least two spaces of padding and the longer
    one exactly two; padded, the header (before colouring) and the
    thought text have the same length in bytes, two less than the border
    has dashes. *)
Theorem frame_rows_padded (d : ThoughtData.t) :
  let padHeader := borderLen d - len (headerContent d) - 2 in
  let padThought := borderLen d - len (ThoughtData.Thought d) - 2 in
  2 <= padHeader /\ 2 <= padThought /\
  (padHeader = 2 \/ padThought = 2) /\
  len (headerContent d +:+ Repeat " " (Z.to_nat padHeader))
  = borderLen d - 2 /\
  len (ThoughtData.Thought d +:+ Repeat " " (Z.to_nat padThought))
  = borderLen d - 2.
Proof.
  intros padHeader padThought. subst padHeader padThought.
  unfold borderLen.
  assert (0 <= len (headerContent d)) by (unfold len; lia).
  assert (0 <= len (ThoughtData.Thought d)) by (unfold len; lia).
  rewrite !len_append, !len_Repeat_space.
  repeat split; lia.
Qed.

Lemma append_assoc (s t u : string) : (s +:+ t) +:+ u = s +:+ (t +:+ u).
Proof.
  induction s as [|c s IH]; [reflexivity|].
  rewrite !append_cons, IH. reflexivity.
Qed.

Lemma prefix_append (p r : string) : String.prefix p (p +:+ r) = true.
Proof.
  induction p as [|c p IH]; [destruct r; reflexivity|].
  rewrite append_cons. simpl. destruct (ascii_dec c c); [exact IH|].
  contradiction.
Qed.

Lemma substring_whole (r : string) : substring 0 (String.length r) r = r.
Proof. induction r as [|c r IH]; simpl; [reflexivity | f_equal; exact IH]. Qed.

Lemma substring_append (p r : string) :
  substring (String.length p)
    (String.length (p +:+ r) - String.length p) (p +:+ r) = r.
Proof.
  induction p as [|c p IH].
  - change ("" +:+ r) with r. simpl String.length.
    rewrite Nat.sub_0_r. apply substring_whole.
  - rewrite append_cons. simpl String.length.
    change (S (String.length (p +:+ r)) - S (String.length p))%nat
      with (String.length (p +:+ r) - String.length p)%nat.
    simpl substring. exact IH.
Qed.

Lemma Replace1_unfold (s old new : string) :
  Replace1 s old new =
    if String.prefix old s then
      new +:+ String.substring (String.length old)
                (String.length s - String.length old) s
    else
      match s with
      | EmptyString => ""
      | String c s' => String c (Replace1 s' old new)
      end.
Proof. destruct s; reflexivity. Qed.

Lemma Replace1_prefix (p r new : string) :
  Replace1 (p +:+ r) p new = new +:+ r.
Proof.
  rewrite Replace1_unfold, prefix_append, substring_append. reflexivity.
Qed.

(** The header after the prefix: [N/M] and the context. *)
Lemma headerContent_split (d : ThoughtData.t) :
  headerContent d =
    prefixText d +:+
      (" " +:+ itoa (ThoughtData.ThoughtNumber d) +:+ "/"
       +:+ itoa (ThoughtData.TotalThoughts d) +:+ contextText d).
Proof. reflexivity. Qed.

Lemma coloredHeader_eq (d : ThoughtData.t) :
  coloredHeader d =
    (if ThoughtData.IsRevision d then yellow
     else if ThoughtData.BranchFromThought d <? 0 then green else blue)
    +:+ prefixText d +:+ reset +:+
      (" " +:+ itoa (ThoughtData.ThoughtNumber d) +:+ "/"
       +:+ itoa (ThoughtData.TotalThoughts d) +:+ contextText d).
Proof.
  unfold coloredHeader.
  rewrite headerContent_split, Replace1_prefix. unfold coloredPrefix.
  destruct (ThoughtData.IsRevision d);
    [|destruct (ThoughtData.BranchFromThought d <? 0)];
    rewrite !append_assoc; reflexivity.
Qed.

(** X11.  The colour wraps the category prefix at the head of the header
    and nothing else: [strings.Replace] hits the prefix at index 0, so the
    coloured header is the colour code, the prefix, the reset code, and
    then the rest of the header unchanged, whatever the branch
    identifier contains. *)
Theorem colour_wraps_prefix_only (d : ThoughtData.t) :
  let colour :=
    if ThoughtData.IsRevision d then yellow
    else if ThoughtData.BranchFromThought d <? 0 then green else blue in
  coloredHeader d =
    colour +:+ prefixText d +:+ reset +:+
      (" " +:+ itoa (ThoughtData.ThoughtNumber d) +:+ "/"
       +:+ itoa (ThoughtData.TotalThoughts d) +:+ contextText d)
  /\ Replace1 (headerContent d) (prefixText d) (coloredPrefix d)
     = coloredPrefix d +:+
         (" " +:+ itoa (ThoughtData.ThoughtNumber d) +:+ "/"
          +:+ itoa (ThoughtData.TotalThoughts d) +:+ contextText d).
Proof.
  intros colour. subst colour. split; [apply coloredHeader_eq|].
  rewrite headerContent_split. apply Replace1_prefix.
Qed.

(** ** No escape character *)

Lemma occurs_append (c : ascii) (s t : string) :
  occurs c (s +:+ t) = occurs c s || occurs c t.
Proof.
  induction s as [|a s IH]; [reflexivity|].
  rewrite append_cons. simpl. rewrite IH. apply orb_assoc.
Qed.

Lemma occurs_Repeat (c : ascii) (s : string) (n : nat) :
  occurs c s = false -> occurs c (Repeat s n) = false.
Proof.
  intros Hs. induction n as [|n IH]; [reflexivity|].
  change (Repeat s (S n)) with (s +:+ Repeat s n).
  rewrite occurs_append, Hs, IH. reflexivity.
Qed.

Lemma occurs_esc_digits (u : Decimal.uint) :
  occurs esc (NilEmpty.string_of_uint u) = false.
Proof. induction u; simpl; auto. Qed.

Lemma occurs_esc_itoa (n : Z) : occurs esc (itoa n) = false.
Proof.
  unfold itoa. destruct (Z.to_int n) as [u|u]; simpl.
  - destruct u; try apply occurs_esc_digits. reflexivity.
  - destruct u; try apply occurs_esc_digits. reflexivity.
Qed.

Lemma occurs_esc_prefixText (d : ThoughtData.t) :
  occurs esc (prefixText d) = false.
Proof.
  unfold prefixText. destruct (ThoughtData.IsRevision d);
    [|destruct (ThoughtData.BranchFromThought d <? 0)]; reflexivity.
Qed.

Lemma occurs_esc_contextText (d : ThoughtData.t) :
  occurs esc (ThoughtData.BranchId d) = false ->
  occurs esc (contextText d) = false.
Proof.
  intros Hid. unfold contextText. destruct (ThoughtData.IsRevision d).
  - destruct (ThoughtData.RevisesThought d <? 0); [|reflexivity].
    rewrite !occurs_append, occurs_esc_itoa. reflexivity.
  - destruct (ThoughtData.BranchFromThought d <? 0); [|reflexivity].
    cbv zeta. rewrite !occurs_append, occurs_esc_itoa.
    destruct (String.eqb (ThoughtData.BranchId d) ""); simpl;
      rewrite ?Hid; reflexivity.
Qed.

(** X12.  The colour constants are raw string literals: backslash, digits
    and bracket, not the escape character.  So a frame holds the escape
    character (byte 27) only if the thought text or the branch identifier
    brings it: no terminal colour sequence is ever produced by
    [formatThought] itself. *)
Theorem frame_has_no_escape (d : ThoughtData.t) :
  occurs esc (ThoughtData.Thought d) = false ->
  occurs esc (ThoughtData.BranchId d) = false ->
  occurs esc (formatThought d) = false.
Proof.
  intros Ht Hid.
  assert (Hctx := occurs_esc_contextText d Hid).
  assert (Hpre := occurs_esc_prefixText d).
  assert (Hhead : occurs esc (coloredHeader d) = false).
  { rewrite coloredHeader_eq, !occurs_append, !occurs_esc_itoa, Hpre, Hctx.
    destruct (ThoughtData.IsRevision d);
      [|destruct (ThoughtData.BranchFromThought d <? 0)]; reflexivity. }
  unfold formatThought. cbv zeta.
  rewrite !occurs_append, Hhead, Ht.
  rewrite !occurs_Repeat by reflexivity. reflexivity.
Qed.

Lemma frame_has_no_escape_witness :
  occurs esc (formatThought (thought "think" false 3 3 (-1) "b1")) = false.
Proof.
  apply (frame_has_no_escape (thought "think" false 3 3 (-1) "b1"));
    reflexivity.
Defined.

(** ** Logged category and registration *)

Lemma normalize_revision_fields (input : ThoughtData.t) :
  ThoughtData.IsRevision (normalize input) = ThoughtData.IsRevision input /\
  ThoughtData.RevisesThought (normalize input)
  = ThoughtData.RevisesThought input.
Proof.
  unfold normalize.
  destruct (ThoughtData.ThoughtNumber input >? ThoughtData.TotalThoughts input);
    split; reflexivity.
Qed.

(** X13.  The category shown in the log is not the one that decides the
    registration.  A revision that meets the branch condition is
    registered as a branch, yet its frame is a revision frame that names
    neither the branch point nor the identifier.  A record that is no
    revision, has a negative [branchFromThought] and an empty [branchId]
    registers nothing, yet its frame is a branch frame with an empty
    identifier. *)
Theorem logged_category_differs_from_registration
    (s : SequentialThinkingServer) (d : ThoughtData.t) :
  valid d ->
  (ThoughtData.IsRevision d = true -> branchTrigger d = true ->
   ThoughtData.BranchId d ∈ branches (server_after (ProcessThought s d)) /\
   prefixText (normalize d) = "🔄 Revision" /\
   contextText (normalize d) =
     (if ThoughtData.RevisesThought d <? 0
      then " (revising thought " +:+ itoa (ThoughtData.RevisesThought d)
           +:+ ")"
      else "")) /\
  (ThoughtData.IsRevision d = false ->
   ThoughtData.BranchFromThought d < 0 -> ThoughtData.BranchId d = "" ->
   branches (server_after (ProcessThought s d)) = branches s /\
   branchKeys (server_after (ProcessThought s d)) = branchKeys s /\
   headerContent (normalize d) =
     "🌿 Branch " +:+ itoa (ThoughtData.ThoughtNumber d) +:+ "/"
     +:+ itoa (Z.max (ThoughtData.ThoughtNumber d)
                 (ThoughtData.TotalThoughts d))
     +:+ " (from thought " +:+ itoa (ThoughtData.BranchFromThought d)
     +:+ ", ID: )").
Proof.
  intros Hv. destruct (ProcessThought_valid s d Hv) as [Hs _].
  destruct (normalize_fields d) as (Hn & _ & Hbf & Hid & Htot).
  destruct (normalize_revision_fields d) as [Hrev Hrt].
  split.
  - intros Hr Ht. rewrite Hs. split; [apply accepted_knows, Ht|].
    unfold prefixText, contextText. rewrite Hrev, Hrt, Hr. auto.
  - intros Hr Hneg Hempty.
    assert (Hg : branchTrigger d = false)
      by (apply branchTrigger_false_iff; right; exact Hempty).
    rewrite Hs, (accepted_trigger_false s d Hg). simpl.
    split; [reflexivity|]. split; [reflexivity|].
    unfold headerContent, prefixText, contextText.
    rewrite Hrev, Hr, Hbf, Hid, Hn, Htot, Hempty.
    rewrite (proj2 (Z.ltb_lt _ _) Hneg). reflexivity.
Qed.

Lemma logged_category_differs_from_registration_witness :
  "b" ∈ branches (server_after
                    (ProcessThought (NewSequentialThinkingServer false)
                       revision_that_branches)) /\
  prefixText (normalize revision_that_branches) = "🔄 Revision" /\
  contextText (normalize revision_that_branches) = "".
Proof.
  apply (logged_category_differs_from_registration
           (NewSequentialThinkingServer false) revision_that_branches);
    reflexivity.
Defined.

(** ** Concurrent callers: exclusion, progress, termination *)

Lemma Inv_order_left (s0 : SequentialThinkingServer)
    (args : list ThoughtData.t) (order : list nat) (c : config) (t : nat) :
  Inv s0 args order c ->
  (t ∈ order <->
   exists p : pc, pcs c !! t = Some p /\ left_section p = true).
Proof.
  intros HI. split.
  - intros Hin.
    destruct (proj2 (inv_order _ _ _ _ HI) t Hin) as (a & Ha & _).
    destruct (lookup_lt_is_Some_2 (pcs c) t) as [p Hp].
    { rewrite (inv_length _ _ _ _ HI). eapply lookup_lt_Some, Ha. }
    exists p. split; [exact Hp|].
    pose proof (inv_threads _ _ _ _ HI t p Hp) as Ht.
    destruct p as [| | | | | | | |[e|o]]; simpl in Ht; try reflexivity;
      exfalso; tauto.
  - intros (p & Hp & Hl).
    pose proof (inv_threads _ _ _ _ HI t p Hp) as Ht.
    destruct p as [| | | | | | | |[e|o]]; try discriminate; simpl in Ht.
    + destruct Ht as (_ & k & Hk & _). apply list_elem_of_lookup. eauto.
    + destruct Ht as (k & a & Hk & _). apply list_elem_of_lookup. eauto.
Qed.

(** X14.  Mutual exclusion.  In every configuration that concurrent
    callers can reach, at most one caller is between [Lock] and [Unlock]
    and the mutex is held exactly when there is one.  The callers that
    have left their locked section can be listed, each once and no other
    caller, all with accepted arguments, so that while the mutex is free
    the server is the one their calls leave when issued in that order. *)
Theorem locked_section_exclusive (s0 : SequentialThinkingServer)
    (args : list ThoughtData.t) (sched : list nat) (c : config) :
  exec args sched (initial s0 args) = Some c ->
  (forall (t1 t2 : nat) (p1 p2 : pc),
      pcs c !! t1 = Some p1 -> pcs c !! t2 = Some p2 ->
      holds_lock p1 = true -> holds_lock p2 = true -> t1 = t2) /\
  (mu c = true <->
   exists (t : nat) (p : pc), pcs c !! t = Some p /\ holds_lock p = true) /\
  exists order : list nat,
    NoDup order /\
    (forall t : nat,
        t ∈ order <->
        exists p : pc, pcs c !! t = Some p /\ left_section p = true) /\
    (forall t : nat, t ∈ order ->
        exists a : ThoughtData.t, args !! t = Some a /\ valid a) /\
    (mu c = false -> srv c = fst (run s0 (args_in args order))).
Proof.
  intros Hexec.
  destruct (Inv_exec s0 args sched [] _ c (Inv_initial s0 args) Hexec)
    as [order HI].
  split; [apply (inv_exclusive _ _ _ _ HI)|].
  pose proof (inv_mutex _ _ _ _ HI) as Hmu.
  split.
  - split.
    + intros Hm. rewrite Hm in Hmu. exact Hmu.
    + intros (t & p & Hp & Hl).
      exact (Inv_mu_of_holder s0 args order c t p HI Hp Hl).
  - exists order. destruct (inv_order _ _ _ _ HI) as [Hnd Hval].
    split; [exact Hnd|]. split; [|split; [exact Hval|]].
    + intros t. exact (Inv_order_left s0 args order c t HI).
    + intros Hm. exact (Inv_free_srv s0 args order c HI Hm).
Qed.

Lemma locked_section_exclusive_witness :
  (forall (t1 t2 : nat) (p1 p2 : pc),
      pcs two_callers_after_one !! t1 = Some p1 ->
      pcs two_callers_after_one !! t2 = Some p2 ->
      holds_lock p1 = true -> holds_lock p2 = true -> t1 = t2) /\
  (mu two_callers_after_one = true <->
   exists (t : nat) (p : pc),
     pcs two_callers_after_one !! t = Some p /\ holds_lock p = true) /\
  exists order : list nat,
    NoDup order /\
    (forall t : nat,
        t ∈ order <->
        exists p : pc,
          pcs two_callers_after_one !! t = Some p /\ left_section p = true)
    /\
    (forall t : nat, t ∈ order ->
        exists a : ThoughtData.t, two_callers !! t = Some a /\ valid a) /\
    (mu two_callers_after_one = false ->
     srv two_callers_after_one
     = fst (run (NewSequentialThinkingServer false)
              (args_in two_callers order))).
Proof.
  apply (locked_section_exclusive (NewSequentialThinkingServer false)
           two_callers [0; 1; 1; 1; 1; 1; 1; 1]%nat two_callers_after_one).
  vm_compute. reflexivity.
Defined.

Lemma exec_work (args : list ThoughtData.t) (sched : list nat)
    (c c' : config) :
  exec args sched c = Some c' -> (work c' + length sched <= work c)%nat.
Proof.
  revert c. induction sched as [|t rest IH]; intros c He.
  - injection He as <-. simpl. lia.
  - simpl in He. destruct (step args t c) as [c1|] eqn:Hs; [|discriminate].
    apply step_work in Hs. specialize (IH c1 He). simpl. lia.
Qed.

Lemma work_replicate (n : nat) :
  sum_list (remaining <$> replicate n AtValidate) = (8 * n)%nat.
Proof.
  induction n as [|n IH]; [reflexivity|].
  change (sum_list (remaining <$> replicate (S n) AtValidate))
    with (8 + sum_list (remaining <$> replicate n AtValidate))%nat.
  rewrite IH. lia.
Qed.

Lemma work_initial (s0 : SequentialThinkingServer)
    (args : list ThoughtData.t) :
  work (initial s0 args) = (8 * length args)%nat.
Proof. apply work_replicate. Qed.

(** X15.  Concurrent calls neither deadlock nor run on for ever.  An
    execution of [N] callers has at most [8 N] steps; from every
    configuration it reaches in which some caller has not returned, some
    caller can take a step; and it can always be carried on until every
    caller has returned. *)
Theorem calls_progress_and_terminate (s0 : SequentialThinkingServer)
    (args : list ThoughtData.t) (sched : list nat) (c : config) :
  exec args sched (initial s0 args) = Some c ->
  (length sched <= 8 * length args)%nat /\
  (~ all_returned c ->
   exists (t : nat) (c' : config), step args t c = Some c') /\
  exists (more : list nat) (c' : config),
    exec args more c = Some c' /\ all_returned c'.
Proof.
  intros Hexec.
  destruct (Inv_exec s0 args sched [] _ c (Inv_initial s0 args) Hexec)
    as [order HI].
  split; [|split].
  - pose proof (exec_work args sched _ c Hexec) as Hw.
    rewrite work_initial in Hw. lia.
  - intros Hnot. exact (Inv_progress s0 args order c HI Hnot).
  - exact (Inv_completes s0 args (work c) order c HI (le_n _)).
Qed.

Lemma calls_progress_and_terminate_witness :
  (length [0; 1; 1; 1]%nat <= 8 * length two_callers)%nat /\
  (~ all_returned two_callers_midway ->
   exists (t : nat) (c' : config),
     step two_callers t two_callers_midway = Some c') /\
  exists (more : list nat) (c' : config),
    exec two_callers more two_callers_midway = Some c' /\ all_returned c'.
Proof.
  apply (calls_progress_and_terminate (NewSequentialThinkingServer false)
           two_callers [0; 1; 1; 1]%nat two_callers_midway).
  vm_compute. reflexivity.
Defined.

(** ** Concurrent callers: the diagnostic stream *)

Lemma returned_lines_insert (args : list ThoughtData.t) (ps : list pc)
    (t : nat) (a : ThoughtData.t) (p p' : pc) :
  args !! t = Some a -> ps !! t = Some p -> line_of a p = [] ->
  returned_lines args (<[t := p']> ps)
  ≡ₚ returned_lines args ps ++ line_of a p'.
Proof.
  unfold returned_lines.
  revert ps t. induction args as [|a0 args IH]; intros ps t Ha Hp Hline;
    [discriminate|].
  destruct ps as [|p0 ps]; [discriminate|].
  destruct t as [|t]; simpl in Ha, Hp.
  - injection Ha as ->. injection Hp as ->. simpl. rewrite Hline. simpl.
    apply Permutation_app_comm.
  - simpl. rewrite (IH ps t Ha Hp Hline). rewrite app_assoc. reflexivity.
Qed.

Lemma DiagInv_step (s0 : SequentialThinkingServer)
    (args : list ThoughtData.t) (order : list nat) (c c' : config)
    (t : nat) :
  Inv s0 args order c -> DiagInv s0 args c -> step args t c = Some c' ->
  DiagInv s0 args c'.
Proof.
  intros HI [Hflag Hdiag] Hstep. unfold step in Hstep.
  destruct (args !! t) as [a|] eqn:Ha; [|discriminate].
  destruct (pcs c !! t) as [p|] eqn:Hp; [|discriminate].
  pose proof (inv_threads _ _ _ _ HI t p Hp) as Ht.
  assert (Hquiet : forall p' : pc,
             line_of a p = [] -> line_of a p' = [] ->
             (if enableThoughtLogging s0
              then returned_lines args (pcs c) else [])
             ≡ₚ (if enableThoughtLogging s0
                 then returned_lines args (<[t := p']> (pcs c)) else [])).
  { intros p' H1 H2. destruct (enableThoughtLogging s0); [|reflexivity].
    rewrite (returned_lines_insert args (pcs c) t a p p' Ha Hp H1), H2.
    rewrite app_nil_r. reflexivity. }
  destruct p as [|input|input|input|input|input hl|input hl snap
                 |input hl snap|r]; simpl in Ht.
  - destruct (validateThoughtData a); injection Hstep as <-;
      (split; [exact Hflag|]); simpl; rewrite Hdiag; apply Hquiet;
      reflexivity.
  - destruct (mu c); [discriminate|]. injection Hstep as <-.
    split; [exact Hflag|]. simpl. rewrite Hdiag. apply Hquiet; reflexivity.
  - injection Hstep as <-. split; [exact Hflag|]. simpl.
    rewrite Hdiag. apply Hquiet; reflexivity.
  - injection Hstep as <-. split.
    + simpl. rewrite registerBranch_flag. exact Hflag.
    + simpl. rewrite Hdiag. apply Hquiet; reflexivity.
  - injection Hstep as <-. split; [exact Hflag|]. simpl.
    rewrite Hdiag. apply Hquiet; reflexivity.
  - injection Hstep as <-. split; [exact Hflag|]. simpl.
    rewrite Hdiag. apply Hquiet; reflexivity.
  - injection Hstep as <-. split; [exact Hflag|]. simpl.
    rewrite Hdiag. apply Hquiet; reflexivity.
  - injection Hstep as <-. split; [exact Hflag|]. simpl.
    destruct Ht as ((a' & Ha' & _ & ->) & _).
    assert (a' = a) as -> by congruence.
    rewrite Hflag, Hdiag. destruct (enableThoughtLogging s0).
    + rewrite (returned_lines_insert args (pcs c) t a _ _ Ha Hp eq_refl).
      reflexivity.
    + rewrite app_nil_r. reflexivity.
  - discriminate.
Qed.

Lemma returned_lines_initial (args : list ThoughtData.t) (n : nat) :
  returned_lines args (replicate n AtValidate) = [].
Proof.
  unfold returned_lines. revert n.
  induction args as [|a args IH]; intros [|n]; try reflexivity.
  simpl. apply IH.
Qed.

Lemma DiagInv_exec (s0 : SequentialThinkingServer)
    (args : list ThoughtData.t) (sched : list nat) (order : list nat)
    (c c' : config) :
  Inv s0 args order c -> DiagInv s0 args c -> exec args sched c = Some c' ->
  DiagInv s0 args c'.
Proof.
  revert order c. induction sched as [|t rest IH]; intros order c HI HD He.
  - injection He as <-. exact HD.
  - simpl in He. destruct (step args t c) as [c1|] eqn:Hs; [|discriminate].
    destruct (Inv_step s0 args order c c1 t HI Hs) as [order1 HI1].
    exact (IH order1 c1 HI1 (DiagInv_step s0 args order c c1 t HI HD Hs) He).
Qed.

Lemma returned_lines_final (args : list ThoughtData.t) (ps : list pc) :
  (forall (t : nat) (a : ThoughtData.t),
      args !! t = Some a -> valid a ->
      exists o : Output.t, ps !! t = Some (Returned (Ok o))) ->
  (forall (t : nat) (a : ThoughtData.t) (e : error),
      args !! t = Some a -> validateThoughtData a = Some e ->
      ps !! t = Some (Returned (Err e))) ->
  returned_lines args ps = logged_line <$> filter valid args.
Proof.
  unfold returned_lines. revert ps.
  induction args as [|a args IH]; intros ps Hok Herr; [reflexivity|].
  assert (IH' : forall ps' : list pc, ps = ps' ->
            forall p0 ps1, ps' = p0 :: ps1 ->
            concat (zip_with line_of args ps1)
            = logged_line <$> filter valid args).
  { intros ps' -> p0 ps1 ->. apply IH.
    - intros t a' Ha' Hv. exact (Hok (S t) a' Ha' Hv).
    - intros t a' e Ha' He. exact (Herr (S t) a' e Ha' He). }
  destruct (decide (valid a)) as [Hv|Hn].
  - destruct (Hok 0%nat a eq_refl Hv) as [o Ho].
    destruct ps as [|p0 ps1]; [discriminate|]. injection Ho as ->.
    rewrite filter_cons_True by exact Hv. simpl.
    f_equal. exact (IH' _ eq_refl _ _ eq_refl).
  - destruct (validateThoughtData a) as [e|] eqn:He; [|contradiction].
    pose proof (Herr 0%nat a e eq_refl He) as Hp.
    destruct ps as [|p0 ps1]; [discriminate|]. injection Hp as ->.
    rewrite filter_cons_False by exact Hn. simpl.
    exact (IH' _ eq_refl _ _ eq_refl).
Qed.

(** X16.  One frame per accepted call, also under concurrency.  When all
    concurrent callers have returned, the diagnostic stream holds, in
    some order, exactly the frames of the accepted arguments if the
    server logs, one each, and nothing if it does not; the flag is what
    it was at the start. *)
Theorem concurrent_frames_one_each (s0 : SequentialThinkingServer)
    (args : list ThoughtData.t) (sched : list nat) (c : config) :
  exec args sched (initial s0 args) = Some c -> all_returned c ->
  enableThoughtLogging (srv c) = enableThoughtLogging s0 /\
  diag c ≡ₚ
    (if enableThoughtLogging s0
     then logged_line <$> filter valid args else []) /\
  length (diag c)
  = (if enableThoughtLogging s0 then length (filter valid args) else 0%nat).
Proof.
  intros Hexec Hall.
  destruct (Inv_exec s0 args sched [] _ c (Inv_initial s0 args) Hexec)
    as [order HI].
  assert (HD0 : DiagInv s0 args (initial s0 args)).
  { split; [reflexivity|]. simpl. rewrite returned_lines_initial.
    destruct (enableThoughtLogging s0); reflexivity. }
  destruct (DiagInv_exec s0 args sched [] _ c (Inv_initial s0 args) HD0 Hexec)
    as [Hflag Hdiag].
  destruct (Inv_all_returned s0 args order c HI Hall)
    as (_ & _ & Hok & Herr).
  assert (Hlines : returned_lines args (pcs c)
                   = logged_line <$> filter valid args).
  { apply returned_lines_final.
    - intros t a Ha Hv. destruct (Hok t a Ha Hv) as (k & o & _ & Hp & _).
      eauto.
    - exact Herr. }
  rewrite Hlines in Hdiag. split; [exact Hflag|]. split; [exact Hdiag|].
  rewrite Hdiag. destruct (enableThoughtLogging s0); [|reflexivity].
  apply length_fmap.
Qed.

Lemma concurrent_frames_one_each_witness :
  enableThoughtLogging (srv two_callers_logged_end)
  = enableThoughtLogging (NewSequentialThinkingServer true) /\
  diag two_callers_logged_end ≡ₚ
    (if enableThoughtLogging (NewSequentialThinkingServer true)
     then logged_line <$> filter valid two_callers else []) /\
  length (diag two_callers_logged_end)
  = (if enableThoughtLogging (NewSequentialThinkingServer true)
     then length (filter valid two_callers) else 0%nat).
Proof.
  apply (concurrent_frames_one_each (NewSequentialThinkingServer true)
           two_callers two_callers_sched two_callers_logged_end).
  - vm_compute. reflexivity.
  - unfold all_returned. vm_compute. repeat constructor.
Defined.

(** ** Callers one after the other *)

Lemma exec_app (args : list ThoughtData.t) (l1 l2 : list nat)
    (c : config) :
  exec args (l1 ++ l2) c =
    match exec args l1 c with
    | Some c1 => exec args l2 c1
    | None => None
    end.
Proof.
  revert c. induction l1 as [|t l1 IH]; intros c; [reflexivity|].
  simpl. destruct (step args t c); [apply IH | reflexivity].
Qed.

Lemma solo_run (args : list ThoughtData.t) (t : nat) (a : ThoughtData.t)
    (c : config) :
  args !! t = Some a -> pcs c !! t = Some AtValidate -> mu c = false ->
  exists c' : config,
    exec args (solo t a) c = Some c' /\
    srv c' = server_after (ProcessThought (srv c) a) /\
    mu c' = false /\
    pcs c' = <[t := Returned (returned (ProcessThought (srv c) a))]> (pcs c).
Proof.
  intros Ha Hp Hm. unfold solo.
  assert (Hlt : (t < length (pcs c))%nat) by (eapply lookup_lt_Some, Hp).
  destruct (validateThoughtData a) as [e|] eqn:Hv.
  - eexists. simpl. unfold step. rewrite Ha, Hp, Hv.
    split; [reflexivity|]. rewrite (ProcessThought_invalid _ a e Hv).
    simpl. auto.
  - eexists. split.
    + cbn [replicate exec]. unfold step at 1. rewrite Ha, Hp, Hv.
      do 7 (unfold step at 1; rewrite Ha;
            cbn [pcs at_pc with_mu with_srv with_diag srv mu diag];
            rewrite list_lookup_insert_eq
              by (rewrite ?length_insert; exact Hlt);
            try rewrite Hm).
      reflexivity.
    + cbn [pcs at_pc with_mu with_srv with_diag srv mu diag].
      rewrite !list_insert_insert_eq.
      destruct (ProcessThought_valid (srv c) a Hv) as [-> ->].
      unfold accepted. rewrite registerBranch_normalize.
      destruct (normalize_fields a) as (-> & -> & _ & _ & ->).
      auto.
Qed.

Lemma run_snd_app (l1 l2 : list ThoughtData.t)
    (s : SequentialThinkingServer) :
  snd (run s (l1 ++ l2)) = snd (run s l1) ++ snd (run (fst (run s l1)) l2).
Proof.
  revert s. induction l1 as [|input rest IH]; intros s; [reflexivity|].
  rewrite <- app_comm_cons, !run_cons. simpl. rewrite IH. reflexivity.
Qed.

Lemma run_snd_length (l : list ThoughtData.t) (s : SequentialThinkingServer) :
  length (snd (run s l)) = length l.
Proof.
  revert s. induction l as [|input rest IH]; intros s; [reflexivity|].
  rewrite run_cons. simpl. rewrite IH. reflexivity.
Qed.

Lemma one_by_one_prefix (s : SequentialThinkingServer)
    (args : list ThoughtData.t) (k : nat) :
  (k <= length args)%nat ->
  exists c : config,
    exec args (concat (imap solo (take k args))) (initial s args) = Some c /\
    srv c = fst (run s (take k args)) /\
    mu c = false /\
    pcs c = (Returned <$> snd (run s (take k args)))
              ++ replicate (length args - k) AtValidate.
Proof.
  induction k as [|k IH]; intros Hk.
  - exists (initial s args). simpl. rewrite Nat.sub_0_r. auto.
  - destruct (IH ltac:(lia)) as (c & He & Hs & Hm & Hp).
    destruct (lookup_lt_is_Some_2 args k ltac:(lia)) as [a Ha].
    assert (Hlen : length (Returned <$> snd (run s (take k args))) = k).
    { rewrite length_fmap, run_snd_length, length_take. lia. }
    assert (Hpk : pcs c !! k = Some AtValidate).
    { rewrite Hp, lookup_app_r by lia. rewrite Hlen, Nat.sub_diag.
      replace (length args - k)%nat with (S (length args - S k)) by lia.
      reflexivity. }
    destruct (solo_run args k a c Ha Hpk Hm) as (c' & He' & Hs' & Hm' & Hp').
    exists c'. rewrite (take_S_r args k a Ha).
    rewrite imap_app, concat_app, exec_app, He. simpl.
    rewrite length_take, Nat.min_l, Nat.add_0_r, app_nil_r by lia.
    split; [exact He'|]. split; [|split; [exact Hm'|]].
    + rewrite Hs', Hs, run_app. reflexivity.
    + rewrite Hp', Hp, Hs, run_snd_app, fmap_app, <- app_assoc.
      rewrite insert_app_r_alt by lia. rewrite Hlen, Nat.sub_diag.
      replace (length args - k)%nat with (S (length args - S k)) by lia.
      reflexivity.
Qed.

(** X17.  Callers that do not overlap are served in the order they come.
    When each caller runs from entry to return before the next one
    starts, the server ends as after the sequence of calls [run], and
    caller [t] holds the answer of the [t]-th call of that sequence. *)
Theorem callers_one_by_one (s : SequentialThinkingServer)
    (args : list ThoughtData.t) :
  exists c : config,
    exec args (one_by_one args) (initial s args) = Some c /\
    srv c = fst (run s args) /\
    mu c = false /\
    pcs c = Returned <$> snd (run s args) /\
    all_returned c.
Proof.
  destruct (one_by_one_prefix s args (length args) (le_n _))
    as (c & He & Hs & Hm & Hp).
  rewrite firstn_all, Nat.sub_diag, app_nil_r in *.
  exists c. unfold one_by_one.
  split; [exact He|]. split; [exact Hs|]. split; [exact Hm|].
  split; [exact Hp|].
  unfold all_returned. rewrite Hp. apply Forall_fmap, Forall_true.
  reflexivity.
Qed.

(** ** The order of the keys *)

Lemma lex_lt_compare (s t : string) : lex_lt s t <-> String.compare s t = Lt.
Proof.
  unfold lex_lt, strict, String.le, String.leb.
  rewrite (String.compare_antisym t s).
  destruct (String.compare s t); simpl; intuition (auto; discriminate).
Qed.

(** [lex_lt] byte by byte: the empty string comes before every other,
    and of two non-empty strings the one with the smaller first byte comes
    first, the rests deciding when the first bytes are equal. *)
Lemma lex_lt_bytewise :
  (forall s : string, ~ lex_lt s "") /\
  (forall (b : ascii) (t : string), lex_lt "" (String b t)) /\
  (forall (a b : ascii) (s t : string),
      lex_lt (String a s) (String b t) <->
      (N_of_ascii a < N_of_ascii b)%N \/ (a = b /\ lex_lt s t)).
Proof.
  split; [|split].
  - intros s. rewrite lex_lt_compare. destruct s; discriminate.
  - intros b t. rewrite lex_lt_compare. reflexivity.
  - intros a b s t. rewrite !lex_lt_compare. simpl.
    unfold Ascii.compare.
    destruct (N.compare_spec (N_of_ascii a) (N_of_ascii b)) as [Heq|Hlt|Hgt].
    + assert (a = b) as ->.
      { rewrite <- (ascii_N_embedding a), <- (ascii_N_embedding b), Heq.
        reflexivity. }
      split; [auto|]. intros [Hlt|[_ H]]; [lia | exact H].
    + split; auto.
    + split; [discriminate|]. intros [Hlt|[-> _]]; lia.
Qed.

Lemma registered_nonempty (inputs : list ThoughtData.t) :
  "" ∉ registered inputs.
Proof.
  induction inputs as [|input rest IH]; simpl.
  - apply not_elem_of_empty.
  - rewrite elem_of_union. intros [Hin|Hin]; [|exact (IH Hin)].
    destruct (validateThoughtData input); [apply elem_of_empty in Hin; exact Hin|].
    destruct (branchTrigger input) eqn:Ht;
      [|apply elem_of_empty in Hin; exact Hin].
    apply elem_of_singleton in Hin.
    unfold branchTrigger in Ht. rewrite <- Hin in Ht.
    rewrite andb_false_r in Ht. discriminate.
Qed.

(** X18.  The positions in [branchKeys] follow Go's bytewise string
    order.  On every server reached from a fresh one the key list never
    holds the empty string; of two keys the one at the smaller index is
    the one that compares less, and the other way round; and along the
    list the first bytes never decrease, keys with the same first byte
    being ordered by their rests. *)
Theorem branchKeys_byte_order (b : bool) (inputs : list ThoughtData.t) :
  let keys := branchKeys (fst (run (NewSequentialThinkingServer b) inputs)) in
  ("" ∉ keys) /\
  (forall (i j : nat) (x y : string),
      keys !! i = Some x -> keys !! j = Some y ->
      ((i < j)%nat <-> String.compare x y = Lt)) /\
  (forall (i j : nat) (a c : ascii) (x y : string),
      keys !! i = Some (String a x) -> keys !! j = Some (String c y) ->
      (i < j)%nat ->
      (N_of_ascii a < N_of_ascii c)%N \/
      (a = c /\ String.compare x y = Lt)).
Proof.
  intros keys.
  assert (Hc : consistent (fst (run (NewSequentialThinkingServer b) inputs)))
    by apply run_consistent, consistent_new.
  destruct Hc as [Hs Hk]. fold keys in Hs, Hk.
  assert (Hlt : forall (i j : nat) (x y : string),
             keys !! i = Some x -> keys !! j = Some y -> (i < j)%nat ->
             lex_lt x y).
  { intros i j x y Hi Hj Hij. exact (sorted_lookup_lt keys i j x y Hs Hi Hj Hij). }
  split; [|split].
  - intros Hin. apply Hk in Hin. rewrite run_branches in Hin.
    apply elem_of_union in Hin as [Hin|Hin].
    + simpl in Hin. apply elem_of_empty in Hin. exact Hin.
    + exact (registered_nonempty inputs Hin).
  - intros i j x y Hi Hj. rewrite <- lex_lt_compare. split.
    + apply Hlt; assumption.
    + intros Hxy. destruct (Nat.lt_trichotomy i j) as [H|[H|H]];
        [exact H | |].
      * subst j. assert (x = y) as -> by congruence.
        destruct (irreflexivity lex_lt y Hxy).
      * destruct (lex_lt_asym x y Hxy (Hlt j i y x Hj Hi H)).
  - intros i j a c x y Hi Hj Hij.
    pose proof (Hlt i j _ _ Hi Hj Hij) as Hxy.
    apply (proj2 (proj2 lex_lt_bytewise)) in Hxy.
    rewrite <- lex_lt_compare. exact Hxy.
Qed.

(** ** The answers of a run *)

Lemma run_snd_lookup (inputs : list ThoughtData.t)
    (s : SequentialThinkingServer) (k : nat) (input : ThoughtData.t) :
  inputs !! k = Some input ->
  snd (run s inputs) !! k
  = Some (returned (ProcessThought (fst (run s (take k inputs))) input)).
Proof.
  revert s k. induction inputs as [|i0 rest IH]; intros s k Hk;
    [discriminate|].
  destruct k as [|k].
  - injection Hk as ->. rewrite run_cons. reflexivity.
  - change (take (S k) (i0 :: rest)) with (i0 :: take k rest).
    rewrite !run_cons. cbn [fst snd].
    exact (IH (server_after (ProcessThought s i0)) k Hk).
Qed.

Lemma run_take_S (inputs : list ThoughtData.t)
    (s : SequentialThinkingServer) (k : nat) (input : ThoughtData.t) :
  inputs !! k = Some input ->
  fst (run s (take (S k) inputs))
  = server_after (ProcessThought (fst (run s (take k inputs))) input).
Proof.
  intros Hk. rewrite (take_S_r inputs k input Hk), run_app. reflexivity.
Qed.

(** X19.  On a fresh server the first accepted call returns history
    length 1 and, as branch list, its own identifier alone when it meets
    the branch condition and no list otherwise. *)
Theorem first_answer (b : bool) (input : ThoughtData.t) :
  valid input ->
  returned (ProcessThought (NewSequentialThinkingServer b) input) =
    Ok {| Output.ThoughtNumber := ThoughtData.ThoughtNumber input;
          Output.TotalThoughts :=
            Z.max (ThoughtData.ThoughtNumber input)
                  (ThoughtData.TotalThoughts input);
          Output.NextThoughtNeeded := ThoughtData.NextThoughtNeeded input;
          Output.Branches :=
            if branchTrigger input then Some [ThoughtData.BranchId input]
            else None;
          Output.ThoughtHistoryLength := 1 |}.
Proof.
  intros Hv.
  destruct (ProcessThought_valid (NewSequentialThinkingServer b) input Hv)
    as [_ ->].
  assert (Hsnap : snapshotBranches
                    (accepted (NewSequentialThinkingServer b) input)
                  = if branchTrigger input
                    then Some [ThoughtData.BranchId input] else None).
  { unfold accepted, registerBranch.
    destruct (branchTrigger input); reflexivity. }
  rewrite Hsnap, accepted_historyLen. reflexivity.
Qed.

Lemma first_answer_witness :
  returned (ProcessThought (NewSequentialThinkingServer false)
              (thought "first" true 2 1 (-1) "b"))
  = Ok (Output.mk 2 2 true (Some ["b"]) 1).
Proof.
  apply (first_answer false (thought "first" true 2 1 (-1) "b")).
  reflexivity.
Defined.

(** X20.  The answer to an accepted call in a run from a fresh server,
    rejected calls mixed in or not, is a function of what was accepted up
    to and including it: its history length is the number of accepted
    calls so far, and its branch list is the strictly ascending listing
    of the identifiers registered so far, absent when there are none. *)
Theorem answer_characterised (b : bool) (inputs : list ThoughtData.t)
    (k : nat) (input : ThoughtData.t) :
  inputs !! k = Some input -> valid input ->
  exists o : Output.t,
    snd (run (NewSequentialThinkingServer b) inputs) !! k = Some (Ok o) /\
    Output.ThoughtNumber o = ThoughtData.ThoughtNumber input /\
    Output.TotalThoughts o
    = Z.max (ThoughtData.ThoughtNumber input) (ThoughtData.TotalThoughts input)
    /\ Output.NextThoughtNeeded o = ThoughtData.NextThoughtNeeded input /\
    Output.ThoughtHistoryLength o
    = Z.of_nat (length (filter valid (take (S k) inputs))) /\
    exists l : list string,
      sortedKeys l /\
      (forall x : string, x ∈ l <-> x ∈ registered (take (S k) inputs)) /\
      Output.Branches o = (if l is [] then None else Some l).
Proof.
  intros Hk Hv.
  set (s0 := NewSequentialThinkingServer b).
  set (sk := fst (run s0 (take k inputs))).
  set (s' := fst (run s0 (take (S k) inputs))).
  assert (Hs' : s' = accepted sk input).
  { unfold s'. rewrite (run_take_S inputs s0 k input Hk).
    apply ProcessThought_valid, Hv. }
  destruct (ProcessThought_valid sk input Hv) as [_ Ho].
  eexists. split.
  { rewrite (run_snd_lookup inputs s0 k input Hk). fold sk. rewrite Ho.
    reflexivity. }
  simpl. rewrite <- Hs'.
  split; [reflexivity|]. split; [reflexivity|]. split; [reflexivity|].
  split.
  - unfold s'. rewrite run_drops_rejected.
    rewrite run_historyLen by apply filter_valid_Forall. reflexivity.
  - assert (Hc : consistent s') by apply run_consistent, consistent_new.
    exists (branchKeys s'). split; [apply Hc|]. split.
    + intros x. rewrite (keys_branches _ Hc). unfold s'.
      rewrite run_branches. simpl. rewrite elem_of_union, elem_of_empty.
      tauto.
    + unfold snapshotBranches. destruct (branchKeys s'); reflexivity.
Qed.

Lemma answer_characterised_witness :
  exists o : Output.t,
    snd (run (NewSequentialThinkingServer false) two_callers) !! 1%nat
    = Some (Ok o) /\
    Output.ThoughtNumber o = 3 /\
    Output.TotalThoughts o = Z.max 3 3 /\
    Output.NextThoughtNeeded o = false /\
    Output.ThoughtHistoryLength o
    = Z.of_nat (length (filter valid (take 2 two_callers))) /\
    exists l : list string,
      sortedKeys l /\
      (forall x : string, x ∈ l <-> x ∈ registered (take 2 two_callers)) /\
      Output.Branches o = (if l is [] then None else Some l).
Proof.
  apply (answer_characterised false two_callers 1
           (thought "second" false 3 3 (-2) "a")); reflexivity.
Defined.
